(** * metal-db-proxy: the MySQL wire protocol core of [internal/proxy]

    A shallow embedding of the packet codec, the scalar encoders, the
    response builders, the credential verifier, the handshake orchestrator
    and the session loop, together with the properties of the design
    document that were checked against them.

    Conventions.
    - A Go [byte]/[uint8] is a [Byte.byte]; a [[]byte] and a Go [string] are
      both [list byte] (a Go string is an immutable byte sequence, and the
      conversions [string(b)] and [[]byte(s)] keep the bytes).
    - [uint16], [uint32], [uint64] and [int] are [Z] with the wrap-around
      written out ([u16], [u32], [u64], [int_of]); [int] is 64 bits wide.
    - A Go [error] is a value of the inductive type [error]; [nil] is [None].
    - A run-time fault (index or slice bounds out of range) is the [Panic]
      outcome of the [outcome] monad.
    - [io.Reader] is the list of bytes still to come, [io.Writer] a buffer
      that can refuse writes. *)

From Stdlib Require Import ZArith List Lia Bool.
From Stdlib Require Import Strings.String Strings.Byte DecimalString.
Import ListNotations.
Open Scope Z_scope.

(** ** Machine integers and bytes *)

Module GoInt.

Definition u8 (z : Z) : Z := z mod 2 ^ 8.
Definition u16 (z : Z) : Z := z mod 2 ^ 16.
Definition u32 (z : Z) : Z := z mod 2 ^ 32.
Definition u64 (z : Z) : Z := z mod 2 ^ 64.

(** Conversion to the signed 64-bit [int]: two's complement. *)
Definition int_of (z : Z) : Z := (z + 2 ^ 63) mod 2 ^ 64 - 2 ^ 63.

(** [a + b] on [int]. *)
Definition int_add (a b : Z) : Z := int_of (a + b).

(** [uint64(b)], [uint32(b)], [int(b)] for a byte [b]. *)
Definition byte_to_Z (b : byte) : Z := Z.of_N (Byte.to_N b).

(** [byte(z)]: the low eight bits. *)
Definition byte_of_Z (z : Z) : byte :=
  match Byte.of_N (Z.to_N (z mod 256)) with
  | Some b => b
  | None => x00
  end.

(** [len(s)] as an [int]. *)
Definition len {A : Type} (s : list A) : Z := Z.of_nat (List.length s).

Definition byte_xor (a b : byte) : byte :=
  byte_of_Z (Z.lxor (byte_to_Z a) (byte_to_Z b)).

Definition bytes_eqb (a b : list byte) : bool :=
  if list_eq_dec Byte.byte_eq_dec a b then true else false.

(** A Go string literal. *)
Definition str (s : string) : list byte := list_byte_of_string s.

(** [%d] of [fmt]. *)
Definition fmt_d (z : Z) : list byte :=
  if z <? 0
  then str "-" ++ str (NilZero.string_of_uint (N.to_uint (Z.to_N (- z))))
  else str (NilZero.string_of_uint (N.to_uint (Z.to_N z))).

(** [binary.LittleEndian.PutUint16/PutUint64]: [n] bytes, low byte first. *)
Fixpoint le_put (n : nat) (v : Z) : list byte :=
  match n with
  | O => []
  | S n' => byte_of_Z v :: le_put n' (Z.shiftr v 8)
  end.

(** [binary.LittleEndian.Uint32/Uint64]: [b[0] | b[1]<<8 | ...]. *)
Fixpoint le_get (bs : list byte) : Z :=
  match bs with
  | [] => 0
  | b :: bs' => Z.lor (byte_to_Z b) (Z.shiftl (le_get bs') 8)
  end.

End GoInt.
Import GoInt.

(** ** Errors and outcomes *)

(** The error values the package creates or passes on.  [ErrInvalidPacket],
    [ErrInvalidHandshake] and [ErrAuthFailed] are the package's sentinels;
    [EOF] and [ErrUnexpectedEOF] are those of [io]; [Wrapped p e] is
    [fmt.Errorf(p + ": %w", e)]. *)
Inductive error : Type :=
| ErrInvalidPacket
| ErrInvalidHandshake
| ErrAuthFailed
| EOF
| ErrUnexpectedEOF
| ErrClosedPipe
| PayloadTooLarge (n : Z)
| UnsupportedCommand (cmd : byte)
| Wrapped (prefix : string) (e : error).

(** [err.Error()]. *)
Fixpoint Error (e : error) : list byte :=
  match e with
  | ErrInvalidPacket => str "invalid packet"
  | ErrInvalidHandshake => str "invalid handshake"
  | ErrAuthFailed => str "authentication failed"
  | EOF => str "EOF"
  | ErrUnexpectedEOF => str "unexpected EOF"
  | ErrClosedPipe => str "io: read/write on closed pipe"
  | PayloadTooLarge n => str "payload too large: " ++ fmt_d n
  | UnsupportedCommand c => str "unsupported command: " ++ fmt_d (byte_to_Z c)
  | Wrapped p e' => str p ++ str ": " ++ Error e'
  end.

(** [errors.Is(e, io.EOF)]: follows the [%w] chain. *)
Fixpoint is_EOF (e : error) : bool :=
  match e with
  | EOF => true
  | Wrapped _ e' => is_EOF e'
  | _ => false
  end.

(** A value or an error: Go's [(T, error)]. *)
Inductive result (A : Type) : Type :=
| Ok (a : A)
| Err (e : error).
Arguments Ok {A} a.
Arguments Err {A} e.

(** Run-time faults. *)
Inductive panic : Type :=
| SliceBoundsOutOfRange (lo hi : Z)
| IndexOutOfRange (i n : Z).

(** A computation that returns or faults. *)
Inductive outcome (A : Type) : Type :=
| Ret (a : A)
| Panic (p : panic).
Arguments Ret {A} a.
Arguments Panic {A} p.

Definition bind {A B : Type} (m : outcome A) (k : A -> outcome B) : outcome B :=
  match m with
  | Ret a => k a
  | Panic p => Panic p
  end.

Notation "x <- m ;; k" := (bind m (fun x => k))
  (at level 61, m at next level, right associativity).

(** [s[i]]. *)
Definition index (s : list byte) (i : Z) : outcome byte :=
  if (i <? 0) || (len s <=? i) then Panic (IndexOutOfRange i (len s))
  else match nth_error s (Z.to_nat i) with
       | Some b => Ret b
       | None => Panic (IndexOutOfRange i (len s))
       end.

(** [s[lo:]]. *)
Definition slice_from (s : list byte) (lo : Z) : outcome (list byte) :=
  if (lo <? 0) || (len s <? lo) then Panic (SliceBoundsOutOfRange lo (len s))
  else Ret (skipn (Z.to_nat lo) s).

(** [s[lo:hi]].  Go checks [hi] against the capacity; the one use below is
    behind a guard that has already bounded [hi] by the length. *)
Definition slice (s : list byte) (lo hi : Z) : outcome (list byte) :=
  if (lo <? 0) || (hi <? lo) || (len s <? hi)
  then Panic (SliceBoundsOutOfRange lo hi)
  else Ret (firstn (Z.to_nat (hi - lo)) (skipn (Z.to_nat lo) s)).

(** ** Streams *)

(** An [io.Reader] over a finite input: the bytes not yet read. *)
Definition Reader : Type := list byte.

(** [io.ReadFull(r, buf)] with [len(buf) = n]: all [n] bytes, or [io.EOF] when
    nothing was left, or [io.ErrUnexpectedEOF] when the input ends early (what
    was left is consumed). *)
Definition ReadFull (r : Reader) (n : nat) : result (list byte) * Reader :=
  match n with
  | O => (Ok [], r)
  | _ =>
    if (List.length r <? n)%nat
    then (Err (match r with [] => EOF | _ => ErrUnexpectedEOF end), [])
    else (Ok (firstn n r), skipn n r)
  end.

(** An [io.Writer]: what has been written, and whether the peer is gone. *)
Record Writer : Type := mkWriter { written : list byte; closed : bool }.

Definition new_buffer : Writer := mkWriter [] false.

(** [w.Write(p)]: one write of all of [p], or an error and nothing written. *)
Definition Write (w : Writer) (p : list byte) : option error * Writer :=
  if closed w then (Some ErrClosedPipe, w)
  else (None, mkWriter (written w ++ p) false).

(** ** crypto/sha1

    The hash of the Go standard library, after FIPS 180-4.  A digest under
    construction ([sha1.New()], [h.Write(p)]) is the sequence of bytes written
    so far; [h.Sum(nil)] hashes it. *)

Module Sha1.

Definition rotl (n x : Z) : Z :=
  Z.lor (u32 (Z.shiftl x n)) (Z.shiftr x (32 - n)).

Definition add32 (a b : Z) : Z := u32 (a + b).

Fixpoint be_get (bs : list byte) (acc : Z) : Z :=
  match bs with
  | [] => acc
  | b :: bs' => be_get bs' (Z.lor (Z.shiftl acc 8) (byte_to_Z b))
  end.

Definition be_put32 (w : Z) : list byte :=
  [ byte_of_Z (Z.shiftr w 24); byte_of_Z (Z.shiftr w 16);
    byte_of_Z (Z.shiftr w 8); byte_of_Z w ].

Definition be_put64 (w : Z) : list byte :=
  be_put32 (Z.shiftr w 32) ++ be_put32 w.

(** The message, a [0x80] byte, zeros up to 56 modulo 64, the bit length. *)
Definition pad (msg : list byte) : list byte :=
  let n := len msg in
  msg ++ [x80] ++ repeat x00 (Z.to_nat ((55 - n) mod 64))
      ++ be_put64 (u64 (8 * n)).

Fixpoint words (n : nat) (bs : list byte) : list Z :=
  match n with
  | O => []
  | S n' => be_get (firstn 4 bs) 0 :: words n' (skipn 4 bs)
  end.

(** The message schedule, latest word first: [w[t]] from [w[t-3]],
    [w[t-8]], [w[t-14]] and [w[t-16]]. *)
Fixpoint extend (k : nat) (rw : list Z) : list Z :=
  match k with
  | O => rw
  | S k' =>
    let x := Z.lxor (Z.lxor (nth 2 rw 0) (nth 7 rw 0))
                    (Z.lxor (nth 13 rw 0) (nth 15 rw 0)) in
    extend k' (rotl 1 x :: rw)
  end.

Definition schedule (blk : list byte) : list Z :=
  rev (extend 64 (rev (words 16 blk))).

Definition state : Type := (Z * Z * Z * Z * Z)%type.

Definition init : state :=
  (0x67452301, 0xEFCDAB89, 0x98BADCFE, 0x10325476, 0xC3D2E1F0).

Definition not32 (x : Z) : Z := Z.lxor x 0xFFFFFFFF.

Definition round (s : state) (tw : nat * Z) : state :=
  let '(a, b, c, d, e) := s in
  let '(t, w) := tw in
  let '(f, k) :=
    if (t <? 20)%nat
    then (Z.lor (Z.land b c) (Z.land (not32 b) d), 0x5A827999)
    else if (t <? 40)%nat
    then (Z.lxor (Z.lxor b c) d, 0x6ED9EBA1)
    else if (t <? 60)%nat
    then (Z.lor (Z.lor (Z.land b c) (Z.land b d)) (Z.land c d), 0x8F1BBCDC)
    else (Z.lxor (Z.lxor b c) d, 0xCA62C1D6) in
  let tmp := add32 (add32 (add32 (add32 (rotl 5 a) f) e) k) w in
  (tmp, a, rotl 30 b, c, d).

Definition block (h : state) (blk : list byte) : state :=
  let ws := schedule blk in
  let '(a, b, c, d, e) := fold_left round (combine (seq 0 80) ws) h in
  let '(h0, h1, h2, h3, h4) := h in
  (add32 h0 a, add32 h1 b, add32 h2 c, add32 h3 d, add32 h4 e).

Fixpoint blocks (n : nat) (h : state) (bs : list byte) : state :=
  match n with
  | O => h
  | S n' => blocks n' (block h (firstn 64 bs)) (skipn 64 bs)
  end.

Definition digest (msg : list byte) : list byte :=
  let p := pad msg in
  let '(h0, h1, h2, h3, h4) := blocks (List.length p / 64) init p in
  be_put32 h0 ++ be_put32 h1 ++ be_put32 h2 ++ be_put32 h3 ++ be_put32 h4.

Definition Hash : Type := list byte.
Definition New : Hash := [].
Definition Write (h : Hash) (p : list byte) : Hash := h ++ p.
Definition Sum (h : Hash) : list byte := digest h.

End Sha1.

(** ** packet codec and scalar encoders *)

Module Proxy.

Record Packet : Type := mkPacket {
  Length : Z;
  Sequence : byte;
  Payload : list byte
}.

(** [header] is [make([]byte, 4)] filled by [io.ReadFull]: on success it has
    four bytes, so [header[0]] to [header[3]] are in range. *)
Definition ReadPacket (r : Reader) : result Packet * Reader :=
  match ReadFull r 4 with
  | (Err e, r1) => (Err (Wrapped "read header" e), r1)
  | (Ok header, r1) =>
    let length :=
      Z.lor (Z.lor (u32 (byte_to_Z (nth 0 header x00)))
                   (u32 (Z.shiftl (u32 (byte_to_Z (nth 1 header x00))) 8)))
            (u32 (Z.shiftl (u32 (byte_to_Z (nth 2 header x00))) 16)) in
    let sequence := nth 3 header x00 in
    if length =? 0 then (Ok (mkPacket 0 sequence []), r1)
    else
      match ReadFull r1 (Z.to_nat length) with
      | (Err e, r2) => (Err (Wrapped "read payload" e), r2)
      | (Ok payload, r2) => (Ok (mkPacket length sequence payload), r2)
      end
  end.

Definition packet_header (sequence : byte) (payload : list byte) : list byte :=
  [ byte_of_Z (len payload);
    byte_of_Z (Z.shiftr (len payload) 8);
    byte_of_Z (Z.shiftr (len payload) 16);
    sequence ].

Definition WritePacket (w : Writer) (sequence : byte) (payload : list byte)
  : option error * Writer :=
  if len payload >? 0xFFFFFF then (Some (PayloadTooLarge (len payload)), w)
  else Write w (packet_header sequence payload ++ payload).

(** [bytes.IndexByte(s, c)]: the first position of [c] in [s], or [-1]. *)
Fixpoint IndexByte (s : list byte) (c : byte) : Z :=
  match s with
  | [] => -1
  | b :: s' =>
    if Byte.eqb b c then 0
    else let i := IndexByte s' c in if i =? -1 then -1 else i + 1
  end.

Definition ReadNullTerminatedString (data : list byte)
  : result (list byte * Z) :=
  let i := IndexByte data x00 in
  if i =? -1 then Err ErrInvalidPacket
  else Ok (firstn (Z.to_nat i) data, i + 1).

Definition ReadLengthEncodedInt (data : list byte) : result (Z * Z) :=
  match data with
  | [] => Err ErrInvalidPacket
  | first :: _ =>
    if byte_to_Z first <? 0xFB then Ok (byte_to_Z first, 1)
    else if byte_to_Z first =? 0xFB then Ok (0, 1)
    else if byte_to_Z first =? 0xFC then
      match data with
      | _ :: d1 :: d2 :: _ =>
        Ok (Z.lor (byte_to_Z d1) (u64 (Z.shiftl (byte_to_Z d2) 8)), 3)
      | _ => Err ErrInvalidPacket
      end
    else if byte_to_Z first =? 0xFD then
      match data with
      | _ :: d1 :: d2 :: d3 :: _ =>
        Ok (Z.lor (Z.lor (byte_to_Z d1) (u64 (Z.shiftl (byte_to_Z d2) 8)))
                  (u64 (Z.shiftl (byte_to_Z d3) 16)), 4)
      | _ => Err ErrInvalidPacket
      end
    else if byte_to_Z first =? 0xFE then
      match data with
      | _ :: d1 :: d2 :: d3 :: d4 :: d5 :: d6 :: d7 :: d8 :: _ =>
        Ok (le_get [d1; d2; d3; d4; d5; d6; d7; d8], 9)
      | _ => Err ErrInvalidPacket
      end
    else Err ErrInvalidPacket
  end.

Definition lengthEncode (n : Z) : list byte :=
  if n <? 251 then [byte_of_Z n]
  else if n <? 2 ^ 16 then [xfc; byte_of_Z n; byte_of_Z (Z.shiftr n 8)]
  else if n <? 2 ^ 24 then
    [xfd; byte_of_Z n; byte_of_Z (Z.shiftr n 8); byte_of_Z (Z.shiftr n 16)]
  else xfe :: le_put 8 n.

Definition NewOKPacket (affectedRows lastInsertID status : Z) : list byte :=
  let payload := [x00] in
  let payload := payload ++ lengthEncode affectedRows in
  let payload := payload ++ lengthEncode lastInsertID in
  let payload := payload ++ le_put 2 status in
  let payload := payload ++ le_put 2 0 in
  payload.

Definition NewErrPacket (code : Z) (sqlState message : list byte) : list byte :=
  let payload := [] in
  let payload := payload ++ [xff] in
  let payload := payload ++ [byte_of_Z code; byte_of_Z (Z.shiftr code 8)] in
  let payload := payload ++ [byte_of_Z 35] in
  let payload := payload ++ sqlState in
  let payload := payload ++ message in
  payload.

(** [sequence + 1] on [uint8]. *)
Definition next_seq (sequence : byte) : byte :=
  byte_of_Z (byte_to_Z sequence + 1).

(** The loop [for i := 0; i < 20; i++] of the verifier, [n] rounds to go. *)
Fixpoint verify_loop (n : nat) (i : Z) (resp candidate stage1 : list byte)
  : outcome bool :=
  match n with
  | O => Ret true
  | S n' =>
    r <- index resp i ;;
    c <- index candidate i ;;
    s <- index stage1 i ;;
    if negb (Byte.eqb r (byte_xor c s)) then Ret false
    else verify_loop n' (i + 1) resp candidate stage1
  end.

Definition verifyMySQLNativePassword (clientResp password scramble : list byte)
  : outcome bool :=
  let resp := clientResp in
  if negb (len resp =? 20) || (len scramble <? 20) then Ret false
  else
    let h1 := Sha1.New in
    let h1 := Sha1.Write h1 password in
    let stage1 := Sha1.Sum h1 in
    let h2 := Sha1.New in
    let h2 := Sha1.Write h2 stage1 in
    let stage2 := Sha1.Sum h2 in
    let h3 := Sha1.New in
    let h3 := Sha1.Write h3 scramble in
    let h3 := Sha1.Write h3 stage2 in
    let candidate := Sha1.Sum h3 in
    verify_loop 20 0 resp candidate stage1.

Definition handleClientHandshakePacket (payload : list byte) (w : Writer)
  (scramble : list byte) (sequence : byte) : outcome (option error * Writer) :=
  if len payload <? 32 then Ret (Some ErrInvalidHandshake, w)
  else
    maxPacket <- slice payload 4 8 ;;
    let _ := le_get maxPacket in
    let pos := 36 in
    rest <- slice_from payload pos ;;
    match ReadNullTerminatedString rest with
    | Err e => Ret (Some (Wrapped "parse username" e), w)
    | Ok (username, n) =>
      let pos := int_add pos n in
      rest <- slice_from payload pos ;;
      match ReadLengthEncodedInt rest with
      | Err e => Ret (Some (Wrapped "parse auth len" e), w)
      | Ok (authLen, authSize) =>
        let pos := int_add pos authSize in
        if int_add pos (int_of authLen) >? len payload
        then Ret (Some ErrInvalidPacket, w)
        else
          authResp <- slice payload pos (int_add pos (int_of authLen)) ;;
          ok <- verifyMySQLNativePassword authResp (str "password") scramble ;;
          if negb ok then
            let errPkt :=
              NewErrPacket 1045 (str "28000")
                (str "Access denied for user '" ++ username ++ str "'") in
            Ret (WritePacket w (next_seq sequence) errPkt)
          else
            let okPkt := NewOKPacket 0 0 0 in
            Ret (WritePacket w (next_seq sequence) okPkt)
      end
    end.

(** The [sequence] argument is not used: the reply is numbered after the
    packet that was read. *)
Definition HandleHandshake (r : Reader) (w : Writer) (scramble : list byte)
  (sequence : byte) : outcome (option error * Writer) * Reader :=
  match ReadPacket r with
  | (Err e, r1) => (Ret (Some (Wrapped "read handshake" e), w), r1)
  | (Ok pkt, r1) =>
    (handleClientHandshakePacket (Payload pkt) w scramble (Sequence pkt), r1)
  end.

(** [math/rand]: a source of bytes and how many were drawn. *)
Record Rand : Type := mkRand { gen : nat -> byte; drawn : nat }.

(** [rand.Read(buf)] with [len(buf) = n]. *)
Definition rand_Read (g : Rand) (n : nat) : list byte * Rand :=
  (map (gen g) (seq (drawn g) n), mkRand (gen g) (drawn g + n)).

(** [copy(dst, src)]: the contents of [dst] afterwards. *)
Definition copy (dst src : list byte) : list byte :=
  firstn (List.length dst) src ++ skipn (List.length src) dst.

Definition capabilities : Z :=
  Z.lor (Z.lor (Z.lor (Z.lor (Z.lor (Z.lor (Z.lor
    0x00000001 0x00000002) 0x00000004) 0x00000008) 0x00000200)
    0x00002000) 0x00008000) 0x00080000.

Definition SendHandshake (w : Writer) (g : Rand)
  : result (list byte) * Writer * Rand :=
  let buf := [byte_of_Z 10] in
  let buf := buf ++ str "metal-db-proxy-1.0" in
  let buf := buf ++ [x00] in
  let '(connID, g) := rand_Read g 4 in
  let buf := buf ++ connID in
  let '(scramblePart1, g) := rand_Read g 8 in
  let buf := buf ++ scramblePart1 in
  let buf := buf ++ [x00] in
  let buf := buf ++ le_put 2 (u16 capabilities) in
  let buf := buf ++ [x21] in
  let buf := buf ++ le_put 2 0x0002 in
  let buf := buf ++ le_put 2 (u16 (Z.shiftr capabilities 16)) in
  let buf := buf ++ [byte_of_Z 21] in
  let buf := buf ++ repeat x00 10 in
  let '(scramblePart2, g) := rand_Read g 12 in
  let buf := buf ++ scramblePart2 in
  let buf := buf ++ [x00] in
  let buf := buf ++ str "mysql_native_password" in
  let buf := buf ++ [x00] in
  match WritePacket w x00 buf with
  | (Some err, w1) => (Err err, w1, g)
  | (None, w1) =>
    let scramble := repeat x00 20 in
    let scramble :=
      copy (firstn 8 scramble) scramblePart1
      ++ copy (skipn 8 scramble) (firstn 12 scramblePart2) in
    (Ok scramble, w1, g)
  end.

End Proxy.

(** ** connection.go *)

Module Connection.
Import Proxy.

Definition COM_QUIT : byte := x01.
Definition COM_INIT_DB : byte := x02.
Definition COM_QUERY : byte := x03.

Inductive level : Type := Debug | Info | Warn | ErrorLevel.

(** One client connection: the two directions of [conn], the sequence
    counter, and the messages handed to [logger] (fields are left out). *)
Record Connection : Type := mkConnection {
  conn_in : Reader;
  conn_out : Writer;
  sequence : byte;
  logger : list (level * string)
}.

Definition NewConnection (input : Reader) : Connection :=
  mkConnection input new_buffer x00 [].

Definition logf (c : Connection) (l : level) (msg : string) : Connection :=
  mkConnection (conn_in c) (conn_out c) (sequence c) (logger c ++ [(l, msg)]).

Definition with_in (c : Connection) (r : Reader) : Connection :=
  mkConnection r (conn_out c) (sequence c) (logger c).

Definition with_out (c : Connection) (w : Writer) : Connection :=
  mkConnection (conn_in c) w (sequence c) (logger c).

Definition with_sequence (c : Connection) (s : byte) : Connection :=
  mkConnection (conn_in c) (conn_out c) s (logger c).

(** [c.conn.Close()]. *)
Definition Close (c : Connection) : Connection :=
  mkConnection [] (mkWriter (written (conn_out c)) true) (sequence c)
               (logger c).

Definition executeQuery (c : Connection) (query : list byte)
  : option (list byte) * option error * Connection :=
  (Some (NewOKPacket 0 0 0), None, c).

Definition handleCommand (c : Connection) (payload : list byte)
  : outcome (option (list byte) * option error * Connection) :=
  cmd <- index payload 0 ;;
  data <- slice_from payload 1 ;;
  if Byte.eqb cmd COM_QUIT then
    Ret (None, Some EOF, logf c Info "COM_QUIT received")
  else if Byte.eqb cmd COM_INIT_DB then
    let dbName := data in
    Ret (Some (NewOKPacket 0 0 0), None, logf c Info "COM_INIT_DB received")
  else if Byte.eqb cmd COM_QUERY then
    let query := data in
    Ret (executeQuery (logf c Debug "COM_QUERY received") query)
  else
    Ret (None, Some (UnsupportedCommand cmd), logf c Warn "unsupported command").

(** How the body of [Handle] was left. *)
Inductive exit : Type :=
| Returned
| Panicked (p : panic)
| Unfinished.

(** The [for] loop of [Handle]; [fuel] bounds the number of rounds. *)
Fixpoint session_loop (fuel : nat) (c : Connection) : exit * Connection :=
  match fuel with
  | O => (Unfinished, c)
  | S fuel' =>
    match ReadPacket (conn_in c) with
    | (Err err, r) =>
      let c := with_in c r in
      if is_EOF err then (Returned, logf c Info "client disconnected (EOF)")
      else (Returned, logf c Warn "error reading packet")
    | (Ok pkt, r) =>
      let c := with_in c r in
      if len (Payload pkt) =? 0 then session_loop fuel' c
      else
        match handleCommand c (Payload pkt) with
        | Panic p => (Panicked p, c)
        | Ret (_, Some err, c) =>
          let errPkt := NewErrPacket 1064 (str "42000") (Error err) in
          match WritePacket (conn_out c) (next_seq (Sequence pkt)) errPkt with
          | (Some werr, w) =>
            (Returned, logf (with_out c w) Warn "failed to write error packet")
          | (None, w) => session_loop fuel' (with_out c w)
          end
        | Ret (None, None, c) => session_loop fuel' c
        | Ret (Some resp, None, c) =>
          match WritePacket (conn_out c) (next_seq (Sequence pkt)) resp with
          | (Some err, w) =>
            (Returned,
             logf (with_out c w) Warn "failed to write response packet")
          | (None, w) => session_loop fuel' (with_out c w)
          end
        end
    end
  end.

(** One round of that loop, [next] standing for the rounds after it. *)
Definition session_round (next : Connection -> exit * Connection)
  (c : Connection) : exit * Connection :=
  match ReadPacket (conn_in c) with
  | (Err err, r) =>
    let c := with_in c r in
    if is_EOF err then (Returned, logf c Info "client disconnected (EOF)")
    else (Returned, logf c Warn "error reading packet")
  | (Ok pkt, r) =>
    let c := with_in c r in
    if len (Payload pkt) =? 0 then next c
    else
      match handleCommand c (Payload pkt) with
      | Panic p => (Panicked p, c)
      | Ret (_, Some err, c) =>
        let errPkt := NewErrPacket 1064 (str "42000") (Error err) in
        match WritePacket (conn_out c) (next_seq (Sequence pkt)) errPkt with
        | (Some werr, w) =>
          (Returned, logf (with_out c w) Warn "failed to write error packet")
        | (None, w) => next (with_out c w)
        end
      | Ret (None, None, c) => next c
      | Ret (Some resp, None, c) =>
        match WritePacket (conn_out c) (next_seq (Sequence pkt)) resp with
        | (Some err, w) =>
          (Returned,
           logf (with_out c w) Warn "failed to write response packet")
        | (None, w) => next (with_out c w)
        end
      end
  end.

(** The body of [Handle], up to its [return] or fault.  Every round of the
    loop takes at least a packet header from the input, so the length of the
    input bounds the rounds. *)
Definition handle_body (g : Rand) (c : Connection) : exit * Connection :=
  let c := logf c Info "new connection" in
  match SendHandshake (conn_out c) g with
  | (Err err, w, _) =>
    (Returned, logf (with_out c w) ErrorLevel "failed to send handshake")
  | (Ok scramble, w, _) =>
    let c := with_sequence (with_out c w) x01 in
    match HandleHandshake (conn_in c) (conn_out c) scramble (sequence c) with
    | (Panic p, r) => (Panicked p, with_in c r)
    | (Ret (Some err, w), r) =>
      (Returned,
       logf (with_out (with_in c r) w) ErrorLevel "handshake/auth failed")
    | (Ret (None, w), r) =>
      let c := logf (with_out (with_in c r) w) Info "client authenticated" in
      session_loop (S (List.length (conn_in c))) c
    end
  end.

(** [Handle]: the body, then the deferred function. *)
Definition Handle (g : Rand) (c : Connection) : Connection :=
  let '(e, c) := handle_body g c in
  let c :=
    match e with
    | Panicked _ => logf c ErrorLevel "panic in connection"
    | _ => c
    end in
  logf (Close c) Info "connection closed".

End Connection.

(** ** Notions of the design document *)

Module Design.
Import Proxy.

(** The shortest form of a length-encoded integer. *)
Definition minimal_width (v : Z) : Z :=
  if v <? 251 then 1
  else if v <? 2 ^ 16 then 3
  else if v <? 2 ^ 24 then 4
  else 9.

(** A caller can tell two inputs apart from what the decoder returns. *)
Definition distinguishable (decode : list byte -> result (Z * Z))
  (a b : list byte) : Prop :=
  decode a <> decode b.

Fixpoint xor_bytes (a b : list byte) : list byte :=
  match a, b with
  | x :: a', y :: b' => byte_xor x y :: xor_bytes a' b'
  | _, _ => []
  end.

(** [candidate XOR stage1] with [stage1 = HASH(password)],
    [stage2 = HASH(stage1)], [candidate = HASH(scramble ++ stage2)]. *)
Definition expected_response (password scramble : list byte) : list byte :=
  let stage1 := Sha1.digest password in
  let stage2 := Sha1.digest stage1 in
  let candidate := Sha1.digest (scramble ++ stage2) in
  xor_bytes candidate stage1.

(** The client handshake response on the wire: capability flags (4), maximum
    packet size (4), character set (1), reserved (23), the user name and its
    terminator, the length of the auth response, the auth response. *)
Definition client_response (capabilityFlags maxPacketSize : Z) (charset : byte)
  (username authResponse : list byte) : list byte :=
  le_put 4 capabilityFlags ++ le_put 4 maxPacketSize ++ [charset]
    ++ repeat x00 23
    ++ username ++ [x00]
    ++ lengthEncode (len authResponse) ++ authResponse.

(** One packet as the peer sends it. *)
Definition frame (sequence : byte) (payload : list byte) : list byte :=
  packet_header sequence payload ++ payload.

End Design.

(** ** Inputs used in the checks below *)

Module Fixtures.
Import Proxy Connection Design.

(** The values of [TestVerifyMySQLNativePassword]. *)
Definition password : list byte := str "password".
Definition scramble : list byte := repeat x01 20.
Definition good_response : list byte := expected_response password scramble.
Definition bad_response : list byte := repeat x00 20.

(** A random source that makes [SendHandshake] issue [scramble]. *)
Definition ones : Rand := mkRand (fun _ => x01) 0.

(** Client handshake responses in the wire layout: capabilities
    [0x000FA685], 16 MiB packets, utf8. *)
Definition response_of (username authResponse : list byte) : list byte :=
  client_response 0x000FA685 0x01000000 x21 username authResponse.

Definition root_good : list byte := response_of (str "root") good_response.
Definition root_bad : list byte := response_of (str "root") bad_response.
Definition ab_good : list byte := response_of (str "ab") good_response.

(** The shortest response there is: no user name, no auth response. *)
Definition anonymous : list byte := response_of [] [].

(** A payload whose auth-response length is [2^64 - 1]. *)
Definition huge_auth_len : list byte :=
  repeat x00 36 ++ [x00] ++ lengthEncode (2 ^ 64 - 1).

(** Command packets. *)
Definition quit_packet : list byte := frame x00 [COM_QUIT].
Definition init_db_packet : list byte := frame x00 (COM_INIT_DB :: str "test").

End Fixtures.

(** * Properties *)

(** ** Bytes and little-endian integers *)

Section ByteFacts.

Lemma byte_to_Z_range (b : byte) : 0 <= byte_to_Z b < 256.
Proof.
  unfold byte_to_Z. pose proof (Byte.to_N_bounded b) as H.
  split; [apply N2Z.is_nonneg|].
  change 256 with (Z.of_N 256). apply N2Z.inj_lt. lia.
Qed.

Lemma byte_to_of_Z (z : Z) : byte_to_Z (byte_of_Z z) = z mod 256.
Proof.
  unfold byte_to_Z, byte_of_Z.
  assert (Hr : 0 <= z mod 256 < 256) by (apply Z.mod_pos_bound; lia).
  destruct (Byte.of_N (Z.to_N (z mod 256))) as [b|] eqn:E.
  - apply Byte.to_of_N in E. rewrite E. rewrite Z2N.id; lia.
  - apply Byte.of_N_None_iff in E. lia.
Qed.

Lemma byte_of_to_Z (b : byte) : byte_of_Z (byte_to_Z b) = b.
Proof.
  unfold byte_of_Z. pose proof (byte_to_Z_range b) as H.
  rewrite Z.mod_small by lia. unfold byte_to_Z.
  rewrite N2Z.id, Byte.of_to_N. reflexivity.
Qed.

Lemma byte_to_Z_small (z : Z) : 0 <= z < 256 -> byte_to_Z (byte_of_Z z) = z.
Proof. intros H. rewrite byte_to_of_Z. apply Z.mod_small; lia. Qed.

Lemma byte_to_Z_inj (a b : byte) : byte_to_Z a = byte_to_Z b -> a = b.
Proof.
  intros H. rewrite <- (byte_of_to_Z a), <- (byte_of_to_Z b), H. reflexivity.
Qed.

(** A low part and a shifted high part do not overlap. *)
Lemma lor_shiftl_add (a b k : Z) :
  0 <= k -> 0 <= a < 2 ^ k -> Z.lor a (Z.shiftl b k) = a + b * 2 ^ k.
Proof.
  intros Hk Ha. rewrite <- Z.shiftl_mul_pow2 by lia.
  pose proof (Z.add_lor_land a (Z.shiftl b k)) as Hsum.
  enough (Z.land a (Z.shiftl b k) = 0) by lia.
  apply Z.bits_inj'. intros n Hn.
  rewrite Z.land_spec, Z.bits_0.
  destruct (Z.ltb_spec n k) as [Hlt|Hge].
  - rewrite Z.shiftl_spec_low by lia. apply andb_false_r.
  - destruct (Z.eq_dec a 0) as [->|Hnz].
    + rewrite Z.bits_0. reflexivity.
    + rewrite (Z.bits_above_log2 a n); [reflexivity|lia|].
      assert (Z.log2 a < k) by (apply Z.log2_lt_pow2; lia). lia.
Qed.

Lemma le_get_range (bs : list byte) :
  0 <= le_get bs < 2 ^ (8 * len bs).
Proof.
  induction bs as [|b bs IH]; unfold len in *; cbn [le_get List.length].
  - cbn. lia.
  - pose proof (byte_to_Z_range b) as Hb.
    rewrite lor_shiftl_add by lia.
    rewrite Nat2Z.inj_succ.
    replace (8 * Z.succ (Z.of_nat (List.length bs)))
      with (8 + 8 * Z.of_nat (List.length bs)) by lia.
    rewrite Z.pow_add_r by lia. change (2 ^ 8) with 256. nia.
Qed.

Lemma le_put_length (n : nat) (v : Z) : List.length (le_put n v) = n.
Proof.
  revert v. induction n as [|n IH]; intros v; cbn; [|rewrite IH]; reflexivity.
Qed.

(** Reading back what was put gives the value truncated to the width. *)
Lemma le_get_put (n : nat) (v : Z) :
  le_get (le_put n v) = v mod 2 ^ (8 * Z.of_nat n).
Proof.
  revert v. induction n as [|n IH]; intros v.
  - cbn. rewrite Z.mod_1_r. reflexivity.
  - cbn [le_put le_get]. rewrite IH, byte_to_of_Z.
    rewrite lor_shiftl_add by (try apply Z.mod_pos_bound; lia).
    rewrite Z.shiftr_div_pow2 by lia.
    rewrite Nat2Z.inj_succ.
    replace (8 * Z.succ (Z.of_nat n)) with (8 + 8 * Z.of_nat n) by lia.
    rewrite Z.pow_add_r by lia. change (2 ^ 8) with 256.
    rewrite Z.rem_mul_r by lia. lia.
Qed.

End ByteFacts.

(** ** Length-encoded integers *)

Section LengthEncoded.
Import Proxy Design.

Lemma byte_to_Z_shiftr (v k : Z) :
  0 <= k -> byte_to_Z (byte_of_Z (Z.shiftr v k)) = (v / 2 ^ k) mod 256.
Proof. intros Hk. rewrite byte_to_of_Z, Z.shiftr_div_pow2 by lia. reflexivity. Qed.

Lemma read_one_byte (v : Z) (rest : list byte) :
  0 <= v < 251 -> ReadLengthEncodedInt (byte_of_Z v :: rest) = Ok (v, 1).
Proof.
  intros Hv. unfold ReadLengthEncodedInt.
  rewrite byte_to_Z_small by lia.
  destruct (Z.ltb_spec v 251); [reflexivity|lia].
Qed.

Lemma u64_shiftl_byte (b k : Z) :
  0 <= b < 256 -> 0 <= k <= 56 -> u64 (Z.shiftl b k) = b * 2 ^ k.
Proof.
  intros Hb Hk. unfold u64. rewrite Z.shiftl_mul_pow2 by lia.
  apply Z.mod_small.
  assert (2 ^ k <= 2 ^ 56) by (apply Z.pow_le_mono_r; lia).
  assert (0 < 2 ^ k) by (apply Z.pow_pos_nonneg; lia).
  change (2 ^ 64) with (256 * 2 ^ 56). nia.
Qed.

Lemma lor_mul_add (a b k : Z) :
  0 <= k -> 0 <= a < 2 ^ k -> Z.lor a (b * 2 ^ k) = a + b * 2 ^ k.
Proof.
  intros Hk Ha. rewrite <- (lor_shiftl_add a b k Hk Ha).
  rewrite Z.shiftl_mul_pow2 by lia. reflexivity.
Qed.

Lemma read_two_bytes (v : Z) (rest : list byte) :
  0 <= v < 2 ^ 16 ->
  ReadLengthEncodedInt (xfc :: byte_of_Z v :: byte_of_Z (Z.shiftr v 8) :: rest)
  = Ok (v, 3).
Proof.
  intros Hv. cbn [ReadLengthEncodedInt].
  change (byte_to_Z xfc) with 252.
  cbn [Z.ltb Z.eqb Z.compare Pos.compare Pos.compare_cont Pos.eqb].
  rewrite byte_to_of_Z, byte_to_Z_shiftr by lia.
  assert (H0 : 0 <= v mod 256 < 2 ^ 8) by (apply Z.mod_pos_bound; lia).
  assert (H1 : 0 <= (v / 2 ^ 8) mod 256 < 256) by (apply Z.mod_pos_bound; lia).
  rewrite u64_shiftl_byte by lia.
  rewrite lor_mul_add by lia.
  do 2 f_equal. change (2 ^ 8) with 256 in *. change (2 ^ 16) with 65536 in Hv.
  Z.div_mod_to_equations. lia.
Qed.

Lemma read_three_bytes (v : Z) (rest : list byte) :
  0 <= v < 2 ^ 24 ->
  ReadLengthEncodedInt
    (xfd :: byte_of_Z v :: byte_of_Z (Z.shiftr v 8)
         :: byte_of_Z (Z.shiftr v 16) :: rest)
  = Ok (v, 4).
Proof.
  intros Hv. cbn [ReadLengthEncodedInt].
  change (byte_to_Z xfd) with 253.
  cbn [Z.ltb Z.eqb Z.compare Pos.compare Pos.compare_cont Pos.eqb].
  rewrite byte_to_of_Z, !byte_to_Z_shiftr by lia.
  assert (H0 : 0 <= v mod 256 < 2 ^ 8) by (apply Z.mod_pos_bound; lia).
  assert (H1 : 0 <= (v / 2 ^ 8) mod 256 < 256) by (apply Z.mod_pos_bound; lia).
  assert (H2 : 0 <= (v / 2 ^ 16) mod 256 < 256) by (apply Z.mod_pos_bound; lia).
  rewrite !u64_shiftl_byte by lia.
  rewrite (lor_mul_add (v mod 256)) by lia.
  rewrite lor_mul_add
    by (change (2 ^ 8) with 256 in *; change (2 ^ 16) with 65536; lia).
  do 2 f_equal.
  change (2 ^ 8) with 256 in *. change (2 ^ 16) with 65536 in *.
  change (2 ^ 24) with 16777216 in Hv.
  Z.div_mod_to_equations. lia.
Qed.

Lemma read_eight_bytes (v : Z) (rest : list byte) :
  0 <= v < 2 ^ 64 ->
  ReadLengthEncodedInt (xfe :: le_put 8 v ++ rest) = Ok (v, 9).
Proof.
  intros Hv. pose proof (le_get_put 8 v) as Hg.
  cbn [le_put app] in *. cbn [ReadLengthEncodedInt].
  change (byte_to_Z xfe) with 254.
  cbn [Z.ltb Z.eqb Z.compare Pos.compare Pos.compare_cont Pos.eqb].
  rewrite Hg. change (8 * Z.of_nat 8) with 64.
  rewrite Z.mod_small by lia. reflexivity.
Qed.

(** C6 as the code has it: a leading [0xFB] decodes to the value 0 with one
    byte consumed and no error, and that result carries no mark of NULL: it
    is the result of decoding a leading [0x00]. *)
Theorem null_sentinel_decodes_as_zero (rest : list byte) :
  ReadLengthEncodedInt (xfb :: rest) = Ok (0, 1) /\
  ReadLengthEncodedInt (xfb :: rest) = ReadLengthEncodedInt (x00 :: rest).
Proof. split; reflexivity. Qed.

(** C6 as stated fails: from what the decoder returns, the NULL sentinel
    [0xFB] cannot be told from the encoding [0x00] of the integer zero. *)
Lemma null_sentinel_not_distinguishable :
  ~ distinguishable ReadLengthEncodedInt [xfb] [x00].
Proof. intros H. apply H. reflexivity. Qed.

(** C7: for every unsigned 64-bit [v], [lengthEncode v] is the shortest form
    for the magnitude of [v] (one byte below 251, [0xFC] and two bytes below
    2^16, [0xFD] and three bytes below 2^24, else [0xFE] and eight bytes), and
    [ReadLengthEncodedInt] gives back [v] and that width. *)
Theorem length_encoded_round_trip (v : Z) :
  0 <= v < 2 ^ 64 ->
  (v < 251 -> lengthEncode v = [byte_of_Z v]) /\
  (251 <= v < 2 ^ 16 ->
   lengthEncode v = [xfc; byte_of_Z v; byte_of_Z (Z.shiftr v 8)]) /\
  (2 ^ 16 <= v < 2 ^ 24 ->
   lengthEncode v =
   [xfd; byte_of_Z v; byte_of_Z (Z.shiftr v 8); byte_of_Z (Z.shiftr v 16)]) /\
  (2 ^ 24 <= v -> lengthEncode v = xfe :: le_put 8 v) /\
  len (lengthEncode v) = minimal_width v /\
  ReadLengthEncodedInt (lengthEncode v) = Ok (v, minimal_width v).
Proof.
  intros Hv. unfold lengthEncode, minimal_width.
  change (2 ^ 16) with 65536 in *. change (2 ^ 24) with 16777216 in *.
  destruct (Z.ltb_spec v 251) as [H1|H1];
    [|destruct (Z.ltb_spec v 65536) as [H2|H2];
      [|destruct (Z.ltb_spec v 16777216) as [H3|H3]]].
  - repeat split; try reflexivity; try lia.
    apply read_one_byte; lia.
  - repeat split; try reflexivity; try lia.
    apply read_two_bytes. change (2 ^ 16) with 65536. lia.
  - repeat split; try reflexivity; try lia.
    apply read_three_bytes. change (2 ^ 24) with 16777216. lia.
  - repeat split; try reflexivity; try lia.
    rewrite <- (app_nil_r (le_put 8 v)). apply read_eight_bytes. lia.
Qed.

Lemma length_encoded_round_trip_witness :
  0 <= 70000 < 2 ^ 64 /\
  ReadLengthEncodedInt (lengthEncode 70000) = Ok (70000, 4).
Proof.
  split; [lia|].
  exact (proj2 (proj2 (proj2 (proj2 (proj2
    (length_encoded_round_trip 70000 ltac:(lia))))))).
Defined.

End LengthEncoded.

(** ** Packet codec *)

Section PacketCodec.
Import Proxy Design.

Lemma len_nonneg {A : Type} (s : list A) : 0 <= len s.
Proof. unfold len. lia. Qed.

Lemma len_app {A : Type} (s t : list A) : len (s ++ t) = len s + len t.
Proof. unfold len. rewrite length_app. lia. Qed.

Lemma u32_shiftl_byte (b k : Z) :
  0 <= b < 256 -> 0 <= k <= 24 -> u32 (Z.shiftl (u32 b) k) = b * 2 ^ k.
Proof.
  intros Hb Hk. unfold u32.
  rewrite (Z.mod_small b) by (change (2 ^ 32) with 4294967296; lia).
  rewrite Z.shiftl_mul_pow2 by lia.
  apply Z.mod_small.
  assert (2 ^ k <= 2 ^ 24) by (apply Z.pow_le_mono_r; lia).
  assert (0 < 2 ^ k) by (apply Z.pow_pos_nonneg; lia).
  change (2 ^ 32) with (256 * 2 ^ 24). nia.
Qed.

(** The three length bytes of a header hold the length when it fits. *)
Lemma header_length_decodes (n : Z) :
  0 <= n <= 0xFFFFFF ->
  Z.lor (Z.lor (u32 (byte_to_Z (byte_of_Z n)))
               (u32 (Z.shiftl (u32 (byte_to_Z (byte_of_Z (Z.shiftr n 8)))) 8)))
        (u32 (Z.shiftl (u32 (byte_to_Z (byte_of_Z (Z.shiftr n 16)))) 16))
  = n.
Proof.
  intros Hn. rewrite byte_to_of_Z, !byte_to_Z_shiftr by lia.
  assert (H0 : 0 <= n mod 256 < 2 ^ 8) by (apply Z.mod_pos_bound; lia).
  assert (H1 : 0 <= (n / 2 ^ 8) mod 256 < 256) by (apply Z.mod_pos_bound; lia).
  assert (H2 : 0 <= (n / 2 ^ 16) mod 256 < 256) by (apply Z.mod_pos_bound; lia).
  rewrite !u32_shiftl_byte by lia.
  unfold u32. rewrite (Z.mod_small (n mod 256))
    by (change (2 ^ 8) with 256 in H0; change (2 ^ 32) with 4294967296; lia).
  rewrite (lor_mul_add (n mod 256)) by lia.
  rewrite lor_mul_add
    by (change (2 ^ 8) with 256 in *; change (2 ^ 16) with 65536; lia).
  change (2 ^ 8) with 256 in *. change (2 ^ 16) with 65536 in *.
  Z.div_mod_to_equations. lia.
Qed.

Lemma packet_header_le (sequence : byte) (payload : list byte) :
  packet_header sequence payload = le_put 3 (len payload) ++ [sequence].
Proof.
  unfold packet_header. cbn [le_put app].
  rewrite Z.shiftr_shiftr by lia. reflexivity.
Qed.

Lemma ReadFull_app (s rest : list byte) :
  s <> [] -> ReadFull (s ++ rest) (List.length s) = (Ok s, rest).
Proof.
  intros Hs. unfold ReadFull.
  destruct (List.length s) as [|n] eqn:E.
  - destruct s; [congruence|discriminate].
  - rewrite <- E, length_app.
    destruct (Nat.ltb_spec (List.length s + List.length rest) (List.length s));
      [lia|].
    rewrite firstn_app, Nat.sub_diag, firstn_all, firstn_O, app_nil_r.
    rewrite skipn_app, Nat.sub_diag, skipn_all, skipn_O. reflexivity.
Qed.

(** Reading a stream that starts with one written frame gives the packet
    back and leaves the rest of the stream. *)
Lemma ReadPacket_frame (sequence : byte) (payload rest : list byte) :
  len payload <= 0xFFFFFF ->
  ReadPacket (frame sequence payload ++ rest)
  = (Ok (mkPacket (len payload) sequence payload), rest).
Proof.
  intros Hn. pose proof (len_nonneg payload) as H0.
  unfold frame, packet_header, ReadPacket.
  cbn [app ReadFull List.length Nat.ltb Nat.leb firstn skipn nth].
  rewrite header_length_decodes by lia.
  destruct (Z.eqb_spec (len payload) 0) as [Hz|Hz].
  - destruct payload; [reflexivity|discriminate].
  - unfold len. rewrite Nat2Z.id, ReadFull_app; [reflexivity|].
    intros ->. apply Hz. reflexivity.
Qed.

(** C8: a payload of at most [0xFFFFFF] bytes (the empty one too) written
    with [WritePacket] under any sequence byte and parsed with [ReadPacket]
    comes back with the same sequence number and the same payload. *)
Theorem packet_round_trip (sequence : byte) (payload : list byte) :
  len payload <= 0xFFFFFF ->
  exists w,
    WritePacket new_buffer sequence payload = (None, w) /\
    exists pkt,
      ReadPacket (written w) = (Ok pkt, []) /\
      Sequence pkt = sequence /\ Payload pkt = payload /\
      Length pkt = len payload.
Proof.
  intros Hn. unfold WritePacket.
  destruct (Z.gtb_spec (len payload) 0xFFFFFF) as [Hgt|_]; [lia|].
  eexists. split; [reflexivity|].
  cbn [Write new_buffer closed written app].
  exists (mkPacket (len payload) sequence payload). split.
  - rewrite <- (ReadPacket_frame sequence payload []) by assumption.
    unfold frame. rewrite app_nil_r. reflexivity.
  - repeat split.
Qed.

Lemma packet_round_trip_witness :
  len (str "hello") <= 0xFFFFFF /\
  exists w,
    WritePacket new_buffer x07 (str "hello") = (None, w) /\
    exists pkt,
      ReadPacket (written w) = (Ok pkt, []) /\
      Sequence pkt = x07 /\ Payload pkt = str "hello" /\
      Length pkt = len (str "hello").
Proof.
  split; [vm_compute; discriminate|].
  apply (packet_round_trip x07 (str "hello")). vm_compute. discriminate.
Defined.

(** C9: a payload longer than [0xFFFFFF] bytes is refused with the
    payload-too-large error and the stream is left as it was; any other
    payload goes out in one write of the four header bytes (the length in
    three bytes, low byte first, whole and not truncated, then the sequence
    byte) followed by the payload. *)
Theorem write_packet_outcome (w : Writer) (sequence : byte)
  (payload : list byte) :
  (0xFFFFFF < len payload ->
   WritePacket w sequence payload = (Some (PayloadTooLarge (len payload)), w))
  /\
  (len payload <= 0xFFFFFF ->
   WritePacket w sequence payload
   = Write w (le_put 3 (len payload) ++ [sequence] ++ payload) /\
   le_get (le_put 3 (len payload)) = len payload /\
   (closed w = false ->
    WritePacket w sequence payload
    = (None,
       mkWriter (written w ++ le_put 3 (len payload) ++ [sequence] ++ payload)
                false))).
Proof.
  unfold WritePacket. split; intros Hn.
  - destruct (Z.gtb_spec (len payload) 0xFFFFFF); [reflexivity|lia].
  - destruct (Z.gtb_spec (len payload) 0xFFFFFF); [lia|].
    rewrite packet_header_le, <- app_assoc.
    split; [reflexivity|]. split.
    + rewrite le_get_put. apply Z.mod_small.
      pose proof (len_nonneg payload).
      change (2 ^ (8 * Z.of_nat 3)) with 16777216. lia.
    + intros Hc. unfold Write. rewrite Hc. reflexivity.
Qed.

Lemma len_repeat (b : byte) (n : Z) : 0 <= n -> len (repeat b (Z.to_nat n)) = n.
Proof. intros Hn. unfold len. rewrite repeat_length. lia. Qed.

Lemma write_packet_outcome_witness :
  (0xFFFFFF < len (repeat x00 (Z.to_nat 0x1000000)) /\
   WritePacket new_buffer x00 (repeat x00 (Z.to_nat 0x1000000))
   = (Some (PayloadTooLarge (len (repeat x00 (Z.to_nat 0x1000000)))),
      new_buffer)) /\
  (len (str "hello") <= 0xFFFFFF /\
   closed new_buffer = false /\
   WritePacket new_buffer x07 (str "hello")
   = (None, mkWriter (map byte_of_Z [5; 0; 0; 7] ++ str "hello") false)).
Proof.
  split.
  - assert (H : 0xFFFFFF < len (repeat x00 (Z.to_nat 0x1000000)))
      by (rewrite len_repeat; lia).
    split; [exact H|].
    exact (proj1 (write_packet_outcome new_buffer x00 _) H).
  - assert (H : len (str "hello") <= 0xFFFFFF) by (vm_compute; discriminate).
    split; [exact H|]. split; [reflexivity|].
    exact (proj2 (proj2 (proj2 (write_packet_outcome new_buffer x07 _) H))
                 eq_refl).
Defined.

End PacketCodec.

(** ** Credential verifier *)

Section Verifier.
Import Proxy Design.

Lemma be_put32_length (w : Z) : List.length (Sha1.be_put32 w) = 4%nat.
Proof. reflexivity. Qed.

(** A digest has twenty bytes. *)
Lemma digest_length (msg : list byte) : List.length (Sha1.digest msg) = 20%nat.
Proof.
  unfold Sha1.digest.
  destruct (Sha1.blocks _ Sha1.init _) as [[[[h0 h1] h2] h3] h4].
  rewrite !length_app, !be_put32_length. reflexivity.
Qed.

Lemma index_in_range (s : list byte) (i : nat) :
  (i < List.length s)%nat -> index s (Z.of_nat i) = Ret (nth i s x00).
Proof.
  intros Hi. unfold index, len.
  destruct (Z.ltb_spec (Z.of_nat i) 0); [lia|].
  destruct (Z.leb_spec (Z.of_nat (List.length s)) (Z.of_nat i)); [lia|].
  cbn [orb]. rewrite Nat2Z.id.
  rewrite (nth_error_nth' s x00 Hi). reflexivity.
Qed.

Lemma skipn_cons_nth (s : list byte) (i : nat) :
  (i < List.length s)%nat -> skipn i s = nth i s x00 :: skipn (S i) s.
Proof.
  revert i. induction s as [|b s IH]; intros i Hi; cbn in Hi; [lia|].
  destruct i as [|i]; [reflexivity|].
  cbn [skipn nth]. apply IH. lia.
Qed.

Lemma bytes_eqb_cons (x y : byte) (a b : list byte) :
  bytes_eqb (x :: a) (y :: b) = Byte.eqb x y && bytes_eqb a b.
Proof.
  unfold bytes_eqb.
  destruct (Byte.eqb x y) eqn:E.
  - apply Byte.byte_dec_bl in E. subst y.
    destruct (list_eq_dec Byte.byte_eq_dec a b) as [->|Hn];
      destruct (list_eq_dec Byte.byte_eq_dec (x :: _) (x :: _)) as [He|He];
      try reflexivity; congruence.
  - destruct (list_eq_dec Byte.byte_eq_dec (x :: a) (y :: b)) as [He|He];
      [|reflexivity].
    injection He as -> _. rewrite (Byte.byte_dec_lb eq_refl) in E. discriminate.
Qed.

Lemma bytes_eqb_eq (a b : list byte) : bytes_eqb a b = true <-> a = b.
Proof.
  unfold bytes_eqb. destruct (list_eq_dec Byte.byte_eq_dec a b); split;
    congruence.
Qed.

(** The loop compares the [n] bytes from position [i] on. *)
Lemma verify_loop_compares (n : nat) :
  forall (i : nat) (resp candidate stage1 : list byte),
  (i + n <= List.length resp)%nat ->
  (i + n <= List.length candidate)%nat ->
  (i + n <= List.length stage1)%nat ->
  verify_loop n (Z.of_nat i) resp candidate stage1
  = Ret (bytes_eqb (firstn n (skipn i resp))
                   (xor_bytes (firstn n (skipn i candidate))
                              (firstn n (skipn i stage1)))).
Proof.
  induction n as [|n IH]; intros i resp candidate stage1 Hr Hc Hs.
  - reflexivity.
  - cbn [verify_loop].
    rewrite !index_in_range by lia. cbn [bind].
    rewrite (skipn_cons_nth resp i), (skipn_cons_nth candidate i),
      (skipn_cons_nth stage1 i) by lia.
    cbn [firstn xor_bytes]. rewrite bytes_eqb_cons.
    destruct (Byte.eqb _ _); cbn [negb andb]; [|reflexivity].
    replace (Z.of_nat i + 1) with (Z.of_nat (S i)) by lia.
    apply IH; lia.
Qed.

Lemma xor_bytes_length (a b : list byte) :
  List.length a = List.length b ->
  List.length (xor_bytes a b) = List.length a.
Proof.
  revert b. induction a as [|x a IH]; intros [|y b] H; cbn in *;
    try reflexivity; try discriminate.
  rewrite IH; [reflexivity|lia].
Qed.

(** What the verifier returns on inputs of the right sizes. *)
Lemma verify_compares (resp password scramble : list byte) :
  len resp = 20 -> 20 <= len scramble ->
  verifyMySQLNativePassword resp password scramble
  = Ret (bytes_eqb resp (expected_response password scramble)).
Proof.
  intros Hr Hs. unfold verifyMySQLNativePassword.
  destruct (Z.eqb_spec (len resp) 20) as [_|]; [|lia].
  destruct (Z.ltb_spec (len scramble) 20); [lia|].
  cbn [negb orb].
  unfold Sha1.New, Sha1.Write, Sha1.Sum. cbn [app].
  change 0 with (Z.of_nat 0).
  rewrite verify_loop_compares;
    try (rewrite digest_length; cbn; lia);
    try (unfold len in Hr; lia).
  cbn [skipn]. unfold expected_response.
  assert (Hl : List.length resp = 20%nat) by (unfold len in Hr; lia).
  rewrite <- Hl at 1. rewrite firstn_all.
  rewrite <- (digest_length (scramble ++ Sha1.digest (Sha1.digest password)))
    at 1.
  rewrite firstn_all.
  rewrite <- (digest_length password) at 1.
  rewrite firstn_all. reflexivity.
Qed.

(** C3: the verifier never faults; it answers false when the response is
    not 20 bytes long or the scramble is shorter than 20 bytes, and otherwise
    answers true exactly when the response is [candidate XOR stage1] over
    all 20 bytes, with [stage1 = HASH(password)], [stage2 = HASH(stage1)] and
    [candidate = HASH(scramble ++ stage2)]. *)
Theorem verify_native_password_outcome (clientResp password scramble : list byte) :
  (len clientResp <> 20 \/ len scramble < 20 ->
   verifyMySQLNativePassword clientResp password scramble = Ret false) /\
  (len clientResp = 20 -> 20 <= len scramble ->
   exists b,
     verifyMySQLNativePassword clientResp password scramble = Ret b /\
     (b = true <->
      clientResp
      = xor_bytes
          (Sha1.digest (scramble ++ Sha1.digest (Sha1.digest password)))
          (Sha1.digest password))).
Proof.
  split.
  - intros H. unfold verifyMySQLNativePassword.
    destruct (Z.eqb_spec (len clientResp) 20);
      destruct (Z.ltb_spec (len scramble) 20); try reflexivity; lia.
  - intros Hr Hs. eexists. split; [apply verify_compares; assumption|].
    apply bytes_eqb_eq.
Qed.

Lemma verify_native_password_outcome_witness :
  ((len [x00] <> 20 \/ len Fixtures.scramble < 20) /\
   verifyMySQLNativePassword [x00] Fixtures.password Fixtures.scramble
   = Ret false) /\
  (len Fixtures.good_response = 20 /\ 20 <= len Fixtures.scramble /\
   verifyMySQLNativePassword Fixtures.good_response Fixtures.password
     Fixtures.scramble = Ret true).
Proof.
  assert (H1 : len [x00] <> 20 \/ len Fixtures.scramble < 20)
    by (left; vm_compute; discriminate).
  assert (H2 : len Fixtures.good_response = 20) by (vm_compute; reflexivity).
  assert (H3 : 20 <= len Fixtures.scramble) by (vm_compute; discriminate).
  split; [split; [exact H1|]|split; [exact H2|split; [exact H3|]]].
  - exact (proj1 (verify_native_password_outcome _ _ _) H1).
  - destruct (proj2 (verify_native_password_outcome Fixtures.good_response
                       Fixtures.password Fixtures.scramble) H2 H3)
      as [b [E [_ Hb]]].
    rewrite E. f_equal. apply Hb. reflexivity.
Defined.

(** The cases of [packet_test.go]. *)
Example test_verify_right_password :
  verifyMySQLNativePassword Fixtures.good_response (str "password")
    Fixtures.scramble = Ret true.
Proof. vm_compute. reflexivity. Qed.

Example test_verify_wrong_password :
  verifyMySQLNativePassword Fixtures.good_response (str "wrong")
    Fixtures.scramble = Ret false.
Proof. vm_compute. reflexivity. Qed.

Example test_read_length_encoded_int :
  ReadLengthEncodedInt [xfa] = Ok (0xFA, 1) /\
  ReadLengthEncodedInt [xfc; x01; x02] = Ok (0x0201, 3) /\
  ReadLengthEncodedInt [xfd; x01; x02; x03] = Ok (0x030201, 4) /\
  ReadLengthEncodedInt [xfe; x01; x00; x00; x00; x00; x00; x00; x00]
  = Ok (1, 9) /\
  ReadLengthEncodedInt [xfb] = Ok (0, 1).
Proof. repeat split. Qed.

Example malformed_length_encoded_int :
  ReadLengthEncodedInt [] = Err ErrInvalidPacket /\
  ReadLengthEncodedInt [xfc; x01] = Err ErrInvalidPacket /\
  ReadLengthEncodedInt [xff] = Err ErrInvalidPacket.
Proof. repeat split. Qed.

Example test_ok_packet_format :
  NewOKPacket 1 2 0x0002 = map byte_of_Z [0; 1; 2; 2; 0; 0; 0].
Proof. reflexivity. Qed.

Example test_err_packet_format :
  NewErrPacket 1045 (str "28000") (str "Access denied")
  = [xff; byte_of_Z 0x15; byte_of_Z 0x04] ++ str "#28000Access denied".
Proof. reflexivity. Qed.

Example sha1_abc :
  Sha1.digest (str "abc")
  = map byte_of_Z [0xa9; 0x99; 0x3e; 0x36; 0x47; 0x06; 0x81; 0x6a; 0xba; 0x3e;
                   0x25; 0x71; 0x78; 0x50; 0xc2; 0x6c; 0x9c; 0xd0; 0xd8; 0x9d].
Proof. vm_compute. reflexivity. Qed.

Example sha1_two_blocks :
  Sha1.digest
    (str "abcdbcdecdefdefgefghfghighijhijkijkljklmklmnlmnomnopnopq")
  = map byte_of_Z [0x84; 0x98; 0x3e; 0x44; 0x1c; 0x3b; 0xd2; 0x6e; 0xba; 0xae;
                   0x4a; 0xa1; 0xf9; 0x51; 0x29; 0xe5; 0xe5; 0x46; 0x70; 0xf1].
Proof. vm_compute. reflexivity. Qed.

End Verifier.

(** ** Handshake orchestrator *)

Section Handshake.
Import Proxy Design Fixtures.

(** A payload shorter than the 32 bytes before the user name is refused. *)
Lemma handshake_short_payload (payload : list byte) (w : Writer)
  (scr : list byte) (sequence : byte) :
  len payload < 32 ->
  handleClientHandshakePacket payload w scr sequence
  = Ret (Some ErrInvalidHandshake, w).
Proof.
  intros H. unfold handleClientHandshakePacket.
  destruct (Z.ltb_spec (len payload) 32); [reflexivity|lia].
Qed.

(** A payload of 32 to 35 bytes passes that check and then faults: the
    user name is looked for from position 36. *)
Lemma handshake_faults_below_36 (payload : list byte) (w : Writer)
  (scr : list byte) (sequence : byte) :
  32 <= len payload < 36 ->
  handleClientHandshakePacket payload w scr sequence
  = Panic (SliceBoundsOutOfRange 36 (len payload)).
Proof.
  intros H. unfold handleClientHandshakePacket.
  destruct (Z.ltb_spec (len payload) 32); [lia|].
  unfold slice, slice_from.
  destruct (Z.ltb_spec (len payload) 8); [lia|].
  destruct (Z.ltb_spec (len payload) 36); [|lia].
  reflexivity.
Qed.

Lemma WritePacket_cases (w w' : Writer) (sequence : byte)
  (payload : list byte) (e : option error) :
  WritePacket w sequence payload = (e, w') -> e = None \/ w' = w.
Proof.
  unfold WritePacket, Write.
  destruct (len payload >? 0xFFFFFF); [intros H; injection H as _ <-; now right|].
  destruct (closed w); intros H; injection H as <- <-; [now right|now left].
Qed.

(** Whenever the handshake has sent anything, be it the OK or the ERR
    packet, it returns no error: a rejection is never reported. *)
Lemma handshake_reply_returns_nil (payload : list byte) (w w' : Writer)
  (scr : list byte) (sequence : byte) (e : option error) :
  handleClientHandshakePacket payload w scr sequence = Ret (e, w') ->
  w' <> w -> e = None.
Proof.
  unfold handleClientHandshakePacket. intros H Hw.
  destruct (len payload <? 32); [injection H as _ <-; congruence|].
  destruct (slice payload 4 8); [|discriminate]. cbn [bind] in H.
  destruct (slice_from payload 36) as [rest|]; [|discriminate].
  cbn [bind] in H.
  destruct (ReadNullTerminatedString rest) as [[username n]|];
    [|injection H as _ <-; congruence].
  destruct (slice_from payload _) as [rest2|]; [|discriminate].
  cbn [bind] in H.
  destruct (ReadLengthEncodedInt rest2) as [[authLen authSize]|];
    [|injection H as _ <-; congruence].
  destruct (_ >? len payload); [injection H as _ <-; congruence|].
  destruct (slice payload _ _) as [authResp|]; [|discriminate].
  cbn [bind] in H.
  destruct (verifyMySQLNativePassword _ _ _) as [ok|]; [|discriminate].
  cbn [bind] in H.
  destruct (negb ok); injection H as H;
    apply WritePacket_cases in H; destruct H; congruence.
Qed.

Lemma slice_from_app (a b : list byte) : slice_from (a ++ b) (len a) = Ret b.
Proof.
  unfold slice_from. rewrite len_app.
  pose proof (len_nonneg a). pose proof (len_nonneg b).
  destruct (Z.ltb_spec (len a) 0); [lia|].
  destruct (Z.ltb_spec (len a + len b) (len a)); [lia|].
  cbn [orb]. unfold len. rewrite Nat2Z.id.
  rewrite skipn_app, Nat.sub_diag, skipn_all. reflexivity.
Qed.

Lemma slice_app (a b c : list byte) :
  slice (a ++ b ++ c) (len a) (len a + len b) = Ret b.
Proof.
  unfold slice. rewrite !len_app.
  pose proof (len_nonneg a). pose proof (len_nonneg b).
  pose proof (len_nonneg c).
  destruct (Z.ltb_spec (len a) 0); [lia|].
  destruct (Z.ltb_spec (len a + len b) (len a)); [lia|].
  destruct (Z.ltb_spec (len a + (len b + len c)) (len a + len b)); [lia|].
  cbn [orb]. replace (len a + len b - len a) with (len b) by lia.
  unfold len. rewrite !Nat2Z.id.
  rewrite skipn_app, Nat.sub_diag, skipn_all. cbn [skipn app].
  rewrite firstn_app, Nat.sub_diag, firstn_all, firstn_O, app_nil_r.
  reflexivity.
Qed.

Lemma int_of_small (z : Z) : - 2 ^ 63 <= z < 2 ^ 63 -> int_of z = z.
Proof.
  intros H. unfold int_of. rewrite Z.mod_small; lia.
Qed.

Lemma IndexByte_terminator (name rest : list byte) :
  ~ In x00 name -> IndexByte (name ++ x00 :: rest) x00 = len name.
Proof.
  induction name as [|b name IH]; intros Hn.
  - reflexivity.
  - cbn [app IndexByte].
    destruct (Byte.eqb b x00) eqn:E.
    + apply Byte.byte_dec_bl in E. subst b. exfalso. apply Hn. now left.
    + rewrite IH by (intros Hin; apply Hn; now right).
      pose proof (len_nonneg name).
      destruct (Z.eqb_spec (len name) (-1)); [lia|].
      unfold len. cbn [List.length]. lia.
Qed.

Lemma ReadNullTerminatedString_terminator (name rest : list byte) :
  ~ In x00 name ->
  ReadNullTerminatedString (name ++ x00 :: rest) = Ok (name, len name + 1).
Proof.
  intros Hn. unfold ReadNullTerminatedString.
  rewrite IndexByte_terminator by assumption.
  pose proof (len_nonneg name).
  destruct (Z.eqb_spec (len name) (-1)); [lia|].
  unfold len. rewrite Nat2Z.id.
  rewrite firstn_app, Nat.sub_diag, firstn_all, firstn_O, app_nil_r.
  reflexivity.
Qed.

(** A length-encoded integer is read back whatever follows it. *)
Lemma ReadLengthEncodedInt_app (v : Z) (rest : list byte) :
  0 <= v < 2 ^ 64 ->
  ReadLengthEncodedInt (lengthEncode v ++ rest) = Ok (v, len (lengthEncode v)).
Proof.
  intros Hv. unfold lengthEncode.
  change (2 ^ 16) with 65536 in *. change (2 ^ 24) with 16777216 in *.
  destruct (Z.ltb_spec v 251) as [H1|H1];
    [|destruct (Z.ltb_spec v 65536) as [H2|H2];
      [|destruct (Z.ltb_spec v 16777216) as [H3|H3]]]; cbn [app].
  - apply read_one_byte; lia.
  - apply read_two_bytes. change (2 ^ 16) with 65536. lia.
  - apply read_three_bytes. change (2 ^ 24) with 16777216. lia.
  - apply (read_eight_bytes v rest). lia.
Qed.

(** What the parser does with a payload whose user name starts at position
    36: it asks the verifier about the auth response and sends the OK packet,
    or the ERR packet 1045/28000 naming the user, numbered after the
    client's packet.  Bytes after the auth response are ignored. *)
Lemma handshake_with_username_at_36 (pre username auth trailing : list byte)
  (w : Writer) (scr : list byte) (sequence : byte) :
  len pre = 36 -> ~ In x00 username ->
  len (pre ++ username ++ [x00] ++ lengthEncode (len auth) ++ auth ++ trailing)
    < 2 ^ 63 ->
  handleClientHandshakePacket
    (pre ++ username ++ [x00] ++ lengthEncode (len auth) ++ auth ++ trailing)
    w scr sequence
  = ok <- verifyMySQLNativePassword auth (str "password") scr ;;
    Ret (WritePacket w (next_seq sequence)
           (if ok then NewOKPacket 0 0 0
            else NewErrPacket 1045 (str "28000")
                   (str "Access denied for user '" ++ username ++ str "'"))).
Proof.
  intros Hpre Hname Hlen.
  set (enc := lengthEncode (len auth)) in *.
  set (payload := pre ++ username ++ [x00] ++ enc ++ auth ++ trailing) in *.
  pose proof (len_nonneg username) as Hu. pose proof (len_nonneg auth) as Ha.
  pose proof (len_nonneg trailing) as Ht. pose proof (len_nonneg enc) as He.
  assert (Hp : len payload
               = 36 + len username + 1 + len enc + len auth + len trailing).
  { unfold payload. rewrite !len_app, Hpre. change (len [x00]) with 1. lia. }
  assert (H63 : 2 ^ 63 = 9223372036854775808) by reflexivity.
  assert (H64 : 2 ^ 64 = 18446744073709551616) by reflexivity.
  unfold handleClientHandshakePacket.
  destruct (Z.ltb_spec (len payload) 32); [lia|].
  assert (H48 : slice payload 4 8
                = Ret (firstn (Z.to_nat (8 - 4)) (skipn (Z.to_nat 4) payload))).
  { unfold slice. destruct (Z.ltb_spec (len payload) 8); [lia|]. reflexivity. }
  rewrite H48. cbn [bind].
  rewrite <- Hpre. unfold payload at 1. rewrite slice_from_app. cbn [bind].
  cbn [app]. rewrite ReadNullTerminatedString_terminator by assumption.
  unfold int_add. rewrite Hpre.
  rewrite (int_of_small (36 + (len username + 1))) by lia.
  replace (36 + (len username + 1)) with (len (pre ++ username ++ [x00]))
    by (rewrite !len_app, Hpre; change (len [x00]) with 1; lia).
  replace payload with ((pre ++ username ++ [x00]) ++ enc ++ auth ++ trailing)
    at 1 by (unfold payload; rewrite <- !app_assoc; reflexivity).
  rewrite slice_from_app. cbn [bind].
  unfold enc at 1. rewrite ReadLengthEncodedInt_app by lia.
  fold enc.
  assert (Hq : len (pre ++ username ++ [x00]) = 36 + len username + 1)
    by (rewrite !len_app, Hpre; change (len [x00]) with 1; lia).
  rewrite Hq.
  rewrite (int_of_small (36 + len username + 1 + len enc)) by lia.
  rewrite (int_of_small (len auth)) by lia.
  rewrite (int_of_small (36 + len username + 1 + len enc + len auth)) by lia.
  destruct (Z.gtb_spec (36 + len username + 1 + len enc + len auth)
                       (len payload)); [lia|].
  replace (36 + len username + 1 + len enc)
    with (len (pre ++ username ++ [x00] ++ enc))
    by (rewrite !len_app, Hpre; change (len [x00]) with 1; lia).
  replace payload with ((pre ++ username ++ [x00] ++ enc) ++ auth ++ trailing)
    by (unfold payload; rewrite <- !app_assoc; reflexivity).
  rewrite slice_app. cbn [bind].
  destruct (verifyMySQLNativePassword auth (str "password") scr) as [[|]|];
    reflexivity.
Qed.

(** On a response in the wire layout the parser therefore skips the first
    four bytes of the user name: a user name of four bytes or more is
    shortened by them, and the decision is that of the verifier. *)
Lemma handshake_skips_four_bytes_of_username
  (capabilityFlags maxPacketSize : Z) (charset : byte)
  (skipped shown auth : list byte) (w : Writer) (scr : list byte)
  (sequence : byte) :
  len skipped = 4 -> ~ In x00 shown ->
  len (client_response capabilityFlags maxPacketSize charset
         (skipped ++ shown) auth) < 2 ^ 63 ->
  handleClientHandshakePacket
    (client_response capabilityFlags maxPacketSize charset
       (skipped ++ shown) auth)
    w scr sequence
  = ok <- verifyMySQLNativePassword auth (str "password") scr ;;
    Ret (WritePacket w (next_seq sequence)
           (if ok then NewOKPacket 0 0 0
            else NewErrPacket 1045 (str "28000")
                   (str "Access denied for user '" ++ shown ++ str "'"))).
Proof.
  intros Hs Hn Hlen.
  assert (E : client_response capabilityFlags maxPacketSize charset
                (skipped ++ shown) auth
              = (le_put 4 capabilityFlags ++ le_put 4 maxPacketSize
                   ++ [charset] ++ repeat x00 23 ++ skipped)
                ++ shown ++ [x00] ++ lengthEncode (len auth) ++ auth ++ []).
  { unfold client_response. rewrite app_nil_r, <- !app_assoc. reflexivity. }
  rewrite E in *.
  apply handshake_with_username_at_36; try assumption.
  rewrite !len_app, Hs. unfold len. rewrite !le_put_length. reflexivity.
Qed.

(** C1 fails on the code: the parser is not total.  The shortest well-formed
    response (no user name, no auth response; 34 bytes) passes the 32-byte
    check and faults at [payload[36:]]; and an auth-response length of
    [2^64 - 1], which is [-1] as an [int], passes the bounds check and
    faults at [payload[pos : pos-1]]. *)
Theorem handshake_parser_faults :
  len anonymous = 34 /\
  handleClientHandshakePacket anonymous new_buffer scramble x01
  = Panic (SliceBoundsOutOfRange 36 34) /\
  ReadLengthEncodedInt (skipn 37 huge_auth_len) = Ok (2 ^ 64 - 1, 9) /\
  int_of (2 ^ 64 - 1) = -1 /\
  handleClientHandshakePacket huge_auth_len new_buffer scramble x01
  = Panic (SliceBoundsOutOfRange 46 45).
Proof. repeat split. Qed.

(** C4 fails on the code: a response in the wire layout with the user name
    [ab] and the right credential response gets no OK packet (the user name
    is looked for from position 36, inside the auth response, and parsing
    fails with nothing sent); and the ERR packet for the user name [root]
    with a wrong credential response names the user [''], not [root]. *)
Theorem handshake_reply_misses_username :
  verifyMySQLNativePassword good_response password scramble = Ret true /\
  handleClientHandshakePacket ab_good new_buffer scramble x01
  = Ret (Some (Wrapped "parse username" ErrInvalidPacket), new_buffer) /\
  verifyMySQLNativePassword bad_response password scramble = Ret false /\
  handleClientHandshakePacket root_bad new_buffer scramble x01
  = Ret (None,
         mkWriter (frame x02 (NewErrPacket 1045 (str "28000")
                                (str "Access denied for user ''")))
                  false).
Proof. vm_compute. repeat split. Qed.

(** C10 fails on the code: two responses in the wire layout that differ in
    the user name only ([root] and [ab]), both with the right credential
    response, end differently: the first is answered with an OK packet, the
    second is refused while parsing and the verifier is never asked. *)
Theorem handshake_outcome_depends_on_username :
  root_good = response_of (str "root") good_response /\
  ab_good = response_of (str "ab") good_response /\
  handleClientHandshakePacket root_good new_buffer scramble x01
  = Ret (None, mkWriter (frame x02 (NewOKPacket 0 0 0)) false) /\
  handleClientHandshakePacket ab_good new_buffer scramble x01
  = Ret (Some (Wrapped "parse username" ErrInvalidPacket), new_buffer).
Proof. vm_compute. repeat split. Qed.

End Handshake.

(** ** Connection handling *)

Section Session.
Import Proxy Connection Design Fixtures.

Lemma ReadFull_shrinks (r r' : Reader) (n : nat) (bs : list byte) :
  ReadFull r n = (Ok bs, r') ->
  (List.length r' + n = List.length r)%nat /\ List.length bs = n.
Proof.
  unfold ReadFull. destruct n as [|n].
  - intros H. injection H as <- <-. split; [lia|reflexivity].
  - cbv beta iota. remember (S n) as m eqn:Em.
    destruct (Nat.ltb_spec (List.length r) m) as [Hlt|Hge]; [discriminate|].
    intros H. injection H as <- <-.
    rewrite length_skipn, length_firstn. lia.
Qed.

(** A packet that was read took its header off the input. *)
Lemma ReadPacket_shrinks (r r' : Reader) (pkt : Packet) :
  ReadPacket r = (Ok pkt, r') -> (List.length r' + 4 <= List.length r)%nat.
Proof.
  unfold ReadPacket.
  destruct (ReadFull r 4) as [[header|e] r1] eqn:E1; [|discriminate].
  apply ReadFull_shrinks in E1. destruct E1 as [E1 _].
  destruct (_ =? 0).
  - intros H. injection H as _ <-. lia.
  - destruct (ReadFull r1 _) as [[payload|e] r2] eqn:E2; [|discriminate].
    apply ReadFull_shrinks in E2. destruct E2 as [E2 _].
    intros H. injection H as _ <-. lia.
Qed.

Lemma handleCommand_keeps_input (c c' : Connection) (payload : list byte)
  (resp : option (list byte)) (err : option error) :
  handleCommand c payload = Ret (resp, err, c') ->
  conn_in c' = conn_in c /\ conn_out c' = conn_out c.
Proof.
  unfold handleCommand.
  destruct (index payload 0) as [cmd|]; [|discriminate].
  destruct (slice_from payload 1) as [data|]; [|discriminate].
  cbn [bind].
  destruct (Byte.eqb cmd COM_QUIT);
    [|destruct (Byte.eqb cmd COM_INIT_DB);
      [|destruct (Byte.eqb cmd COM_QUERY)]];
    intros H; injection H as _ _ <-; split; reflexivity.
Qed.

(** The loop of [Handle] comes to an end: with more rounds allowed than the
    input has bytes, it is left by a [return] or a fault. *)
Lemma session_loop_ends (fuel : nat) :
  forall c : Connection,
  (List.length (conn_in c) < fuel)%nat ->
  fst (session_loop fuel c) <> Unfinished.
Proof.
  induction fuel as [|fuel IH]; intros c Hc; [lia|].
  cbn [session_loop].
  destruct (ReadPacket (conn_in c)) as [[pkt|e] r] eqn:ER.
  - apply ReadPacket_shrinks in ER.
    destruct (len (Payload pkt) =? 0).
    + apply IH. cbn. lia.
    + destruct (handleCommand _ _) as [[[resp err] c1]|p] eqn:EH;
        [|cbn; discriminate].
      apply handleCommand_keeps_input in EH. destruct EH as [Hin Hout].
      cbn in Hin.
      destruct resp as [resp|], err as [err|];
        try (destruct (WritePacket _ _ _) as [[werr|] w];
             [cbn; discriminate|]);
        apply IH; cbn [conn_in with_out]; rewrite Hin; lia.
  - destruct (is_EOF e); cbn; discriminate.
Qed.

Lemma handleCommand_quit (c : Connection) (data : list byte) :
  handleCommand c (COM_QUIT :: data)
  = Ret (None, Some EOF, logf c Info "COM_QUIT received").
Proof.
  unfold handleCommand, index, slice_from, len.
  cbn [List.length]. rewrite Nat2Z.inj_succ.
  destruct (Z.leb_spec (Z.succ (Z.of_nat (List.length data))) 0); [lia|].
  destruct (Z.ltb_spec (Z.succ (Z.of_nat (List.length data))) 1); [lia|].
  reflexivity.
Qed.

(** One round of the loop on a quit command: the command comes back as the
    error [io.EOF], which the loop answers like any other error, with an ERR
    packet, and the loop goes on with the rest of the input. *)
Lemma session_loop_quit (fuel : nat) (c : Connection) (seq : byte)
  (data rest : list byte) :
  conn_in c = frame seq (COM_QUIT :: data) ++ rest ->
  len (COM_QUIT :: data) <= 0xFFFFFF ->
  closed (conn_out c) = false ->
  session_loop (S fuel) c
  = session_loop fuel
      (mkConnection rest
         (mkWriter (written (conn_out c)
                    ++ frame (next_seq seq)
                         (NewErrPacket 1064 (str "42000") (str "EOF")))
                   false)
         (sequence c)
         (logger c ++ [(Info, "COM_QUIT received"%string)])).
Proof.
  intros Hin Hlen Hopen. cbn [session_loop].
  rewrite Hin, ReadPacket_frame by assumption.
  cbn [Payload Sequence].
  destruct (Z.eqb_spec (len (COM_QUIT :: data)) 0) as [H0|_];
    [unfold len in H0; cbn in H0; lia|].
  rewrite handleCommand_quit.
  unfold WritePacket.
  change (len (NewErrPacket 1064 (str "42000") (Error EOF)) >? 0xFFFFFF)
    with false.
  cbv beta iota. unfold Write.
  cbn [conn_out logf with_in with_out conn_in sequence logger].
  rewrite Hopen. reflexivity.
Qed.

(** C2 fails on the code: after a failed verification the handshake sends
    the ERR packet and returns no error, so [Handle] logs the client as
    authenticated and runs the command loop, which answers the next command
    with an OK packet. *)
Theorem failed_auth_enters_session :
  verifyMySQLNativePassword bad_response password scramble = Ret false /\
  HandleHandshake (frame x01 root_bad ++ init_db_packet) new_buffer scramble
    x01
  = (Ret (None,
          mkWriter (frame x02 (NewErrPacket 1045 (str "28000")
                                 (str "Access denied for user ''")))
                   false),
     init_db_packet) /\
  let c := Handle ones (NewConnection (frame x01 root_bad ++ init_db_packet)) in
  logger c
  = [ (Info, "new connection"); (Info, "client authenticated");
      (Info, "COM_INIT_DB received"); (Info, "client disconnected (EOF)");
      (Info, "connection closed") ]%string /\
  written (conn_out c)
  = written (snd (fst (SendHandshake new_buffer ones)))
    ++ frame x02 (NewErrPacket 1045 (str "28000")
                    (str "Access denied for user ''"))
    ++ frame x01 (NewOKPacket 0 0 0).
Proof. vm_compute. repeat split. Qed.

(** C5 fails on the code: a quit command is answered with an ERR packet
    (code 1064, state 42000, message EOF) and the loop goes on to serve the
    next command; it ends only when the input does. *)
Theorem quit_is_answered_and_loop_goes_on :
  session_loop 3 (NewConnection (quit_packet ++ init_db_packet))
  = (Returned,
     mkConnection []
       (mkWriter (frame x01 (NewErrPacket 1064 (str "42000") (str "EOF"))
                  ++ frame x01 (NewOKPacket 0 0 0))
                 false)
       x00
       [ (Info, "COM_QUIT received"); (Info, "COM_INIT_DB received");
         (Info, "client disconnected (EOF)") ]%string).
Proof. vm_compute. reflexivity. Qed.

End Session.

(** * Further properties of the code *)

(** ** Null-terminated strings *)

Section NullTerminated.
Import Proxy Design.

Lemma IndexByte_absent (s : list byte) (c : byte) :
  ~ In c s -> IndexByte s c = -1.
Proof.
  induction s as [|b s IH]; intros Hn; [reflexivity|].
  cbn [IndexByte]. destruct (Byte.eqb b c) eqn:E.
  - apply Byte.byte_dec_bl in E. subst b. exfalso. apply Hn. now left.
  - rewrite IH by (intros Hin; apply Hn; now right). reflexivity.
Qed.

Lemma in_split_first (c : byte) (s : list byte) :
  In c s -> exists a b, s = a ++ c :: b /\ ~ In c a.
Proof.
  induction s as [|x s IH]; intros Hin; [destruct Hin|].
  destruct (Byte.byte_eq_dec x c) as [->|Hne].
  - exists [], s. split; [reflexivity|intros []].
  - destruct Hin as [->|Hin]; [congruence|].
    destruct (IH Hin) as [a [b [-> Ha]]].
    exists (x :: a), b. split; [reflexivity|].
    intros [->|H]; [congruence|contradiction].
Qed.

(** X1: [ReadNullTerminatedString] succeeds exactly on data that holds a
    zero byte: it returns the bytes before the first zero byte and a count
    that includes the terminator, so the bytes after the count are what
    follows the terminator. *)
Theorem null_terminated_string_parsed (data s : list byte) (n : Z) :
  ReadNullTerminatedString data = Ok (s, n) <->
  exists rest,
    data = s ++ x00 :: rest /\ ~ In x00 s /\ n = len s + 1 /\
    skipn (Z.to_nat n) data = rest.
Proof.
  split.
  - intros H. destruct (in_dec Byte.byte_eq_dec x00 data) as [Hin|Hout].
    + destruct (in_split_first x00 data Hin) as [a [b [-> Ha]]].
      rewrite ReadNullTerminatedString_terminator in H by assumption.
      injection H as <- <-. exists b. repeat split; try assumption.
      replace (Z.to_nat (len a + 1)) with (List.length (a ++ [x00]))
        by (rewrite length_app; unfold len; cbn; lia).
      replace (a ++ x00 :: b) with ((a ++ [x00]) ++ b)
        by (rewrite <- app_assoc; reflexivity).
      rewrite skipn_app, Nat.sub_diag, skipn_all. reflexivity.
    + unfold ReadNullTerminatedString in H.
      rewrite IndexByte_absent in H by assumption. discriminate.
  - intros [rest [-> [Hs [-> _]]]].
    apply ReadNullTerminatedString_terminator. assumption.
Qed.

(** X2: [ReadNullTerminatedString] fails exactly when the data holds no
    zero byte (the empty data included), and the error is then
    [ErrInvalidPacket]. *)
Theorem null_terminated_string_missing (data : list byte) :
  (ReadNullTerminatedString data = Err ErrInvalidPacket <-> ~ In x00 data) /\
  (forall e, ReadNullTerminatedString data = Err e -> e = ErrInvalidPacket).
Proof.
  split; [split|].
  - intros H Hin.
    destruct (in_split_first x00 data Hin) as [a [b [-> Ha]]].
    rewrite ReadNullTerminatedString_terminator in H by assumption.
    discriminate.
  - intros Hout. unfold ReadNullTerminatedString.
    rewrite IndexByte_absent by assumption. reflexivity.
  - intros e. unfold ReadNullTerminatedString.
    destruct (_ =? -1); [intros H; injection H as <-; reflexivity|discriminate].
Qed.

End NullTerminated.

(** ** Length-encoded integers, the decoder's side *)

Section LengthEncodedDecoder.
Import Proxy Design.

Lemma decode_two (d1 d2 : byte) :
  Z.lor (byte_to_Z d1) (u64 (Z.shiftl (byte_to_Z d2) 8))
  = byte_to_Z d1 + byte_to_Z d2 * 256.
Proof.
  pose proof (byte_to_Z_range d1). pose proof (byte_to_Z_range d2).
  rewrite u64_shiftl_byte by lia.
  rewrite lor_mul_add by (change (2 ^ 8) with 256; lia). reflexivity.
Qed.

Lemma decode_three (d1 d2 d3 : byte) :
  Z.lor (Z.lor (byte_to_Z d1) (u64 (Z.shiftl (byte_to_Z d2) 8)))
        (u64 (Z.shiftl (byte_to_Z d3) 16))
  = byte_to_Z d1 + byte_to_Z d2 * 256 + byte_to_Z d3 * 65536.
Proof.
  pose proof (byte_to_Z_range d1). pose proof (byte_to_Z_range d2).
  pose proof (byte_to_Z_range d3).
  rewrite decode_two, u64_shiftl_byte by lia.
  rewrite lor_mul_add by (change (2 ^ 16) with 65536; lia). reflexivity.
Qed.

(** The first byte of the data decides the form. *)
Lemma first_byte_cases (b : byte) :
  byte_to_Z b < 251 \/ b = xfb \/ b = xfc \/ b = xfd \/ b = xfe \/ b = xff.
Proof.
  pose proof (byte_to_Z_range b) as Hr.
  destruct (Z.ltb_spec (byte_to_Z b) 251) as [|Hge]; [now left|right].
  assert (H : byte_to_Z b = 251 \/ byte_to_Z b = 252 \/ byte_to_Z b = 253
              \/ byte_to_Z b = 254 \/ byte_to_Z b = 255) by lia.
  destruct H as [H|[H|[H|[H|H]]]];
    [left|right; left|do 2 right; left|do 3 right; left|do 4 right];
    apply byte_to_Z_inj; rewrite H; reflexivity.
Qed.

Lemma read_small_first (b : byte) (rest : list byte) :
  byte_to_Z b < 251 -> ReadLengthEncodedInt (b :: rest) = Ok (byte_to_Z b, 1).
Proof.
  intros H. cbn [ReadLengthEncodedInt].
  destruct (Z.ltb_spec (byte_to_Z b) 251); [reflexivity|lia].
Qed.

Lemma ReadLengthEncodedInt_bounds (data : list byte) (v n : Z) :
  ReadLengthEncodedInt data = Ok (v, n) ->
  1 <= n <= len data /\
  ((n = 1 /\ 0 <= v < 251) \/ (n = 3 /\ 0 <= v < 2 ^ 16) \/
   (n = 4 /\ 0 <= v < 2 ^ 24) \/ (n = 9 /\ 0 <= v < 2 ^ 64)).
Proof.
  destruct data as [|b rest]; [discriminate|].
  pose proof (byte_to_Z_range b) as Hb.
  assert (Hl : forall (x : byte) (l : list byte), len (x :: l) = 1 + len l)
    by (intros; unfold len; cbn [List.length]; lia).
  destruct (first_byte_cases b) as [H|[->|[->|[->|[->| ->]]]]].
  - rewrite read_small_first by assumption. intros E. injection E as <- <-.
    rewrite Hl. pose proof (len_nonneg rest). split; [lia|]. left. lia.
  - cbn [ReadLengthEncodedInt]. change (byte_to_Z xfb) with 251.
    cbn [Z.ltb Z.eqb Z.compare Pos.compare Pos.compare_cont Pos.eqb].
    intros E. injection E as <- <-.
    rewrite Hl. pose proof (len_nonneg rest). split; [lia|]. left. lia.
  - destruct rest as [|d1 [|d2 rest]]; try discriminate.
    cbn [ReadLengthEncodedInt]. change (byte_to_Z xfc) with 252.
    cbn [Z.ltb Z.eqb Z.compare Pos.compare Pos.compare_cont Pos.eqb].
    rewrite decode_two. intros E. injection E as <- <-.
    rewrite !Hl. pose proof (len_nonneg rest).
    pose proof (byte_to_Z_range d1). pose proof (byte_to_Z_range d2).
    split; [lia|]. right; left. change (2 ^ 16) with 65536. lia.
  - destruct rest as [|d1 [|d2 [|d3 rest]]]; try discriminate.
    cbn [ReadLengthEncodedInt]. change (byte_to_Z xfd) with 253.
    cbn [Z.ltb Z.eqb Z.compare Pos.compare Pos.compare_cont Pos.eqb].
    rewrite decode_three. intros E. injection E as <- <-.
    rewrite !Hl. pose proof (len_nonneg rest).
    pose proof (byte_to_Z_range d1). pose proof (byte_to_Z_range d2).
    pose proof (byte_to_Z_range d3).
    split; [lia|]. do 2 right; left. change (2 ^ 24) with 16777216. lia.
  - destruct rest as [|d1 [|d2 [|d3 [|d4 [|d5 [|d6 [|d7 [|d8 rest]]]]]]]];
      try discriminate.
    cbn [ReadLengthEncodedInt]. change (byte_to_Z xfe) with 254.
    cbn [Z.ltb Z.eqb Z.compare Pos.compare Pos.compare_cont Pos.eqb].
    intros E. injection E as <- <-.
    rewrite !Hl. pose proof (len_nonneg rest).
    split; [lia|]. do 3 right.
    split; [reflexivity|apply (le_get_range [d1; d2; d3; d4; d5; d6; d7; d8])].
  - destruct rest; discriminate.
Qed.

(** X3: what [ReadLengthEncodedInt] returns on success: the count is 1, 3,
    4 or 9 and never more than the data holds, and the value fits the form
    (below 251, 2^16, 2^24, 2^64). *)
Theorem read_length_encoded_bounds (data : list byte) (v n : Z) :
  ReadLengthEncodedInt data = Ok (v, n) ->
  1 <= n <= len data /\
  ((n = 1 /\ 0 <= v < 251) \/ (n = 3 /\ 0 <= v < 2 ^ 16) \/
   (n = 4 /\ 0 <= v < 2 ^ 24) \/ (n = 9 /\ 0 <= v < 2 ^ 64)).
Proof. apply ReadLengthEncodedInt_bounds. Qed.

Lemma read_length_encoded_bounds_witness :
  ReadLengthEncodedInt [xfd; x01; x02; x03; x04] = Ok (0x030201, 4) /\
  1 <= 4 <= len [xfd; x01; x02; x03; x04].
Proof.
  split; [reflexivity|].
  exact (proj1 (read_length_encoded_bounds [xfd; x01; x02; x03; x04]
                  0x030201 4 eq_refl)).
Defined.

(** X4: the decoder accepts every form, minimal or not: a value below 2^16
    is read from the [0xFC] form, a value below 2^24 from the [0xFD] form and
    any 64-bit value from the [0xFE] form, whatever follows. *)
Theorem read_length_encoded_any_form (v : Z) (rest : list byte) :
  (0 <= v < 2 ^ 16 ->
   ReadLengthEncodedInt (xfc :: le_put 2 v ++ rest) = Ok (v, 3)) /\
  (0 <= v < 2 ^ 24 ->
   ReadLengthEncodedInt (xfd :: le_put 3 v ++ rest) = Ok (v, 4)) /\
  (0 <= v < 2 ^ 64 ->
   ReadLengthEncodedInt (xfe :: le_put 8 v ++ rest) = Ok (v, 9)).
Proof.
  repeat split; intros Hv.
  - cbn [le_put app]. apply read_two_bytes. assumption.
  - cbn [le_put app]. rewrite Z.shiftr_shiftr by lia.
    apply read_three_bytes. assumption.
  - apply read_eight_bytes. assumption.
Qed.

Lemma read_length_encoded_any_form_witness :
  (0 <= 5 < 2 ^ 16 /\
   ReadLengthEncodedInt [xfc; x05; x00] = Ok (5, 3)) /\
  (0 <= 5 < 2 ^ 24 /\
   ReadLengthEncodedInt [xfd; x05; x00; x00] = Ok (5, 4)) /\
  (0 <= 5 < 2 ^ 64 /\
   ReadLengthEncodedInt [xfe; x05; x00; x00; x00; x00; x00; x00; x00]
   = Ok (5, 9)).
Proof.
  assert (H16 : 0 <= 5 < 2 ^ 16) by (cbn; lia).
  assert (H24 : 0 <= 5 < 2 ^ 24) by (cbn; lia).
  assert (H64 : 0 <= 5 < 2 ^ 64) by (cbn; lia).
  split; [split; [exact H16|]|split; [split; [exact H24|]|split; [exact H64|]]].
  - exact (proj1 (read_length_encoded_any_form 5 []) H16).
  - exact (proj1 (proj2 (read_length_encoded_any_form 5 [])) H24).
  - exact (proj2 (proj2 (read_length_encoded_any_form 5 [])) H64).
Defined.

Ltac len_lia := unfold len in *; cbn [List.length] in *; lia.

Lemma form_fc (rest : list byte) :
  (len rest < 2 -> ReadLengthEncodedInt (xfc :: rest) = Err ErrInvalidPacket)
  /\ (2 <= len rest -> exists v, ReadLengthEncodedInt (xfc :: rest) = Ok (v, 3)).
Proof.
  destruct rest as [|d1 [|d2 rest]]; split; intros H;
    try reflexivity; try (exfalso; len_lia); eexists; reflexivity.
Qed.

Lemma form_fd (rest : list byte) :
  (len rest < 3 -> ReadLengthEncodedInt (xfd :: rest) = Err ErrInvalidPacket)
  /\ (3 <= len rest -> exists v, ReadLengthEncodedInt (xfd :: rest) = Ok (v, 4)).
Proof.
  destruct rest as [|d1 [|d2 [|d3 rest]]]; split; intros H;
    try reflexivity; try (exfalso; len_lia); eexists; reflexivity.
Qed.

Lemma form_fe (rest : list byte) :
  (len rest < 8 -> ReadLengthEncodedInt (xfe :: rest) = Err ErrInvalidPacket)
  /\ (8 <= len rest -> exists v, ReadLengthEncodedInt (xfe :: rest) = Ok (v, 9)).
Proof.
  destruct rest as [|d1 [|d2 [|d3 [|d4 [|d5 [|d6 [|d7 [|d8 rest]]]]]]]];
    split; intros H;
    try reflexivity; try (exfalso; len_lia); eexists; reflexivity.
Qed.

(** X5: [ReadLengthEncodedInt] fails exactly on empty data, on a first byte
    [0xFF], and on a [0xFC], [0xFD] or [0xFE] form cut short (fewer than 2,
    3 or 8 bytes after the first); the error is always [ErrInvalidPacket]. *)
Theorem read_length_encoded_failure (data : list byte) :
  (forall e, ReadLengthEncodedInt data = Err e -> e = ErrInvalidPacket) /\
  (ReadLengthEncodedInt data = Err ErrInvalidPacket <->
   data = [] \/
   exists first rest,
     data = first :: rest /\
     (first = xff \/ (first = xfc /\ len rest < 2) \/
      (first = xfd /\ len rest < 3) \/ (first = xfe /\ len rest < 8))).
Proof.
  assert (Hfail : forall d,
            ReadLengthEncodedInt d = Err ErrInvalidPacket ->
            forall e, ReadLengthEncodedInt d = Err e -> e = ErrInvalidPacket)
    by (intros d E e E'; congruence).
  assert (Hok : forall d v n,
            ReadLengthEncodedInt d = Ok (v, n) ->
            forall e, ReadLengthEncodedInt d = Err e -> e = ErrInvalidPacket)
    by (intros d v n E e E'; congruence).
  destruct data as [|b rest].
  { split; [apply Hfail; reflexivity|]. split; [now left|reflexivity]. }
  destruct (first_byte_cases b) as [H|[->|[->|[->|[->| ->]]]]].
  - split; [apply (Hok _ _ _ (read_small_first b rest H))|].
    rewrite read_small_first by assumption. split; [discriminate|].
    intros [E|[f [r [E D]]]]; [discriminate|]. injection E as <- <-.
    destruct D as [->|[[-> _]|[[-> _]|[-> _]]]]; cbn in H; lia.
  - split; [apply (Hok (xfb :: rest) 0 1 eq_refl)|].
    change (ReadLengthEncodedInt (xfb :: rest)) with (@Ok (Z * Z) (0, 1)).
    split; [discriminate|].
    intros [E|[f [r [E D]]]]; [discriminate|]. injection E as <- <-.
    destruct D as [D|[[D _]|[[D _]|[D _]]]]; discriminate.
  - destruct (form_fc rest) as [Hs Hl].
    destruct (Z.ltb_spec (len rest) 2) as [Hlt|Hge].
    + split; [apply Hfail; auto|]. split; [|auto].
      intros _. right. exists xfc, rest. split; [reflexivity|]. right. left. auto.
    + destruct (Hl Hge) as [v Ev]. split; [apply (Hok _ _ _ Ev)|].
      rewrite Ev. split; [discriminate|].
      intros [E|[f [r [E D]]]]; [discriminate|]. injection E as <- <-.
      destruct D as [D|[[D Hc]|[[D _]|[D _]]]]; try discriminate. lia.
  - destruct (form_fd rest) as [Hs Hl].
    destruct (Z.ltb_spec (len rest) 3) as [Hlt|Hge].
    + split; [apply Hfail; auto|]. split; [|auto].
      intros _. right. exists xfd, rest. split; [reflexivity|].
      right. right. left. auto.
    + destruct (Hl Hge) as [v Ev]. split; [apply (Hok _ _ _ Ev)|].
      rewrite Ev. split; [discriminate|].
      intros [E|[f [r [E D]]]]; [discriminate|]. injection E as <- <-.
      destruct D as [D|[[D _]|[[D Hc]|[D _]]]]; try discriminate. lia.
  - destruct (form_fe rest) as [Hs Hl].
    destruct (Z.ltb_spec (len rest) 8) as [Hlt|Hge].
    + split; [apply Hfail; auto|]. split; [|auto].
      intros _. right. exists xfe, rest. split; [reflexivity|].
      right. right. right. auto.
    + destruct (Hl Hge) as [v Ev]. split; [apply (Hok _ _ _ Ev)|].
      rewrite Ev. split; [discriminate|].
      intros [E|[f [r [E D]]]]; [discriminate|]. injection E as <- <-.
      destruct D as [D|[[D _]|[[D _]|[D Hc]]]]; try discriminate. lia.
  - assert (E : ReadLengthEncodedInt (xff :: rest) = Err ErrInvalidPacket)
      by reflexivity.
    split; [apply Hfail; exact E|]. split; [|intros _; exact E].
    intros _. right. exists xff, rest. split; [reflexivity|now left].
Qed.

(** X6: length-encoded integers can be told apart in a stream: two values
    whose encodings, each followed by anything, give the same bytes are the
    same value, followed by the same bytes. *)
Theorem length_encoded_uniquely_decodable (a b : Z) (r1 r2 : list byte) :
  0 <= a < 2 ^ 64 -> 0 <= b < 2 ^ 64 ->
  lengthEncode a ++ r1 = lengthEncode b ++ r2 -> a = b /\ r1 = r2.
Proof.
  intros Ha Hb E.
  pose proof (ReadLengthEncodedInt_app a r1 Ha) as Ea.
  pose proof (ReadLengthEncodedInt_app b r2 Hb) as Eb.
  rewrite E, Eb in Ea. injection Ea as Hab _.
  subst b. split; [reflexivity|].
  apply app_inv_head in E. assumption.
Qed.

Lemma length_encoded_uniquely_decodable_witness :
  lengthEncode 300 ++ [x01] = lengthEncode 300 ++ [x01] /\
  (300 = 300 /\ [x01] = [x01]).
Proof.
  split; [reflexivity|].
  apply (length_encoded_uniquely_decodable 300 300 [x01] [x01]);
    [cbn; lia|cbn; lia|reflexivity].
Defined.

End LengthEncodedDecoder.

(** ** Packets on a stream *)

Section PacketStream.
Import Proxy Design.

Lemma ReadFull_inv (r r' : Reader) (n : nat) (bs : list byte) :
  ReadFull r n = (Ok bs, r') -> r = bs ++ r' /\ List.length bs = n.
Proof.
  unfold ReadFull. destruct n as [|n].
  - intros H. injection H as <- <-. split; reflexivity.
  - cbv beta iota. remember (S n) as m eqn:Em.
    destruct (Nat.ltb_spec (List.length r) m) as [Hlt|Hge]; [discriminate|].
    intros H. injection H as <- <-.
    split; [symmetry; apply firstn_skipn|].
    rewrite length_firstn. lia.
Qed.

Lemma ReadFull_short (r : Reader) (n : nat) :
  (List.length r < n)%nat ->
  ReadFull r n
  = (Err (match r with [] => EOF | _ => ErrUnexpectedEOF end), []).
Proof.
  intros H. unfold ReadFull. destruct n as [|n]; [lia|].
  destruct (Nat.ltb_spec (List.length r) (S n)); [reflexivity|lia].
Qed.

Lemma header_value (h0 h1 h2 : byte) :
  Z.lor (Z.lor (u32 (byte_to_Z h0))
               (u32 (Z.shiftl (u32 (byte_to_Z h1)) 8)))
        (u32 (Z.shiftl (u32 (byte_to_Z h2)) 16))
  = byte_to_Z h0 + byte_to_Z h1 * 256 + byte_to_Z h2 * 65536.
Proof.
  pose proof (byte_to_Z_range h0). pose proof (byte_to_Z_range h1).
  pose proof (byte_to_Z_range h2).
  rewrite !u32_shiftl_byte by lia.
  unfold u32. rewrite (Z.mod_small (byte_to_Z h0))
    by (change (2 ^ 32) with 4294967296; lia).
  rewrite (lor_mul_add (byte_to_Z h0)) by (change (2 ^ 8) with 256; lia).
  rewrite lor_mul_add
    by (change (2 ^ 8) with 256; change (2 ^ 16) with 65536; lia).
  reflexivity.
Qed.

Lemma byte_of_Z_eq (z : Z) (b : byte) : z mod 256 = byte_to_Z b -> byte_of_Z z = b.
Proof.
  intros H. apply byte_to_Z_inj. rewrite byte_to_of_Z. assumption.
Qed.

(** The header written for a length is the three bytes the length was read
    from. *)
Lemma header_bytes_back (h0 h1 h2 : byte) :
  let n := byte_to_Z h0 + byte_to_Z h1 * 256 + byte_to_Z h2 * 65536 in
  byte_of_Z n = h0 /\ byte_of_Z (Z.shiftr n 8) = h1 /\
  byte_of_Z (Z.shiftr n 16) = h2 /\ 0 <= n <= 0xFFFFFF.
Proof.
  pose proof (byte_to_Z_range h0). pose proof (byte_to_Z_range h1).
  pose proof (byte_to_Z_range h2). cbv zeta.
  repeat split; try lia; apply byte_of_Z_eq;
    rewrite ?Z.shiftr_div_pow2 by lia;
    change (2 ^ 8) with 256; change (2 ^ 16) with 65536;
    Z.div_mod_to_equations; lia.
Qed.

(** X7: whatever [ReadPacket] returns is what [WritePacket] would write: the
    bytes taken from the stream are the frame of the packet's sequence byte
    and payload, the [Length] field is the length of the payload, and it is
    at most [0xFFFFFF]. *)
Theorem read_packet_is_frame (r r' : Reader) (pkt : Packet) :
  ReadPacket r = (Ok pkt, r') ->
  r = frame (Sequence pkt) (Payload pkt) ++ r' /\
  Length pkt = len (Payload pkt) /\
  len (Payload pkt) <= 0xFFFFFF.
Proof.
  unfold ReadPacket.
  destruct (ReadFull r 4) as [[header|e] r1] eqn:E1; [|discriminate].
  apply ReadFull_inv in E1. destruct E1 as [-> Hh].
  destruct header as [|h0 [|h1 [|h2 [|h3 [|h4 header]]]]]; try discriminate.
  cbn [nth]. rewrite header_value.
  destruct (header_bytes_back h0 h1 h2) as [B0 [B1 [B2 Bn]]].
  set (n := byte_to_Z h0 + byte_to_Z h1 * 256 + byte_to_Z h2 * 65536) in *.
  destruct (Z.eqb_spec n 0) as [Hz|Hz].
  - intros H. injection H as <- <-. cbn [Sequence Payload Length].
    change (len (@nil byte)) with 0. rewrite <- Hz. repeat split; try lia.
    unfold frame, packet_header. change (len (@nil byte)) with 0.
    rewrite <- Hz, B0, B1, B2. reflexivity.
  - destruct (ReadFull r1 (Z.to_nat n)) as [[payload|e] r2] eqn:E2;
      [|discriminate].
    apply ReadFull_inv in E2. destruct E2 as [-> Hp].
    intros H. injection H as <- <-. cbn [Sequence Payload Length].
    assert (Hlen : len payload = n) by (unfold len; lia).
    repeat split; try lia.
    unfold frame, packet_header. rewrite Hlen, B0, B1, B2.
    rewrite <- app_assoc. reflexivity.
Qed.

Lemma read_packet_is_frame_witness :
  ReadPacket (map byte_of_Z [2; 0; 0; 9; 65; 66; 67])
  = (Ok (mkPacket 2 x09 (str "AB")), str "C") /\
  map byte_of_Z [2; 0; 0; 9; 65; 66; 67] = frame x09 (str "AB") ++ str "C".
Proof.
  split; [reflexivity|].
  exact (proj1 (read_packet_is_frame (map byte_of_Z [2; 0; 0; 9; 65; 66; 67])
                  (str "C") (mkPacket 2 x09 (str "AB")) eq_refl)).
Defined.

(** X8: a frame cut short never gives a packet.  The first [k] bytes of a
    frame, [k] less than its length, make [ReadPacket] fail and use up the
    stream: with [io.EOF] in the header step when nothing is there, with
    [io.ErrUnexpectedEOF] inside the header, with [io.EOF] in the payload
    step when the stream ends right after the header, and with
    [io.ErrUnexpectedEOF] inside the payload. *)
Theorem read_packet_truncated (sequence : byte) (payload : list byte)
  (k : nat) :
  len payload <= 0xFFFFFF ->
  (k < List.length (frame sequence payload))%nat ->
  ReadPacket (firstn k (frame sequence payload))
  = (Err (if (k =? 0)%nat then Wrapped "read header" EOF
          else if (k <? 4)%nat then Wrapped "read header" ErrUnexpectedEOF
          else if (k =? 4)%nat then Wrapped "read payload" EOF
          else Wrapped "read payload" ErrUnexpectedEOF),
     []).
Proof.
  intros Hn Hk. pose proof (len_nonneg payload) as H0.
  unfold frame in *. rewrite length_app in Hk.
  change (List.length (packet_header sequence payload)) with 4%nat in Hk.
  destruct k as [|[|[|[|k]]]]; try reflexivity.
  change (S (S (S (S k)))) with (4 + k)%nat.
  unfold packet_header at 1. cbn [app firstn Nat.add].
  unfold ReadPacket.
  cbn [ReadFull List.length Nat.ltb Nat.leb firstn skipn nth].
  rewrite header_length_decodes by lia.
  destruct (Z.eqb_spec (len payload) 0) as [Hz|Hz]; [unfold len in Hz; lia|].
  rewrite ReadFull_short
    by (rewrite length_firstn; unfold len; rewrite Nat2Z.id; lia).
  destruct k as [|k]; [reflexivity|].
  destruct payload as [|b payload]; [cbn in Hk; lia|]. reflexivity.
Qed.

Lemma read_packet_truncated_witness :
  len (str "hello") <= 0xFFFFFF /\
  (6 < List.length (frame x07 (str "hello")))%nat /\
  ReadPacket (firstn 6 (frame x07 (str "hello")))
  = (Err (Wrapped "read payload" ErrUnexpectedEOF), []).
Proof.
  assert (H1 : len (str "hello") <= 0xFFFFFF) by (vm_compute; discriminate).
  assert (H2 : (6 < List.length (frame x07 (str "hello")))%nat)
    by (vm_compute; lia).
  split; [exact H1|split; [exact H2|]].
  exact (read_packet_truncated x07 (str "hello") 6 H1 H2).
Defined.

(** X9: packets written one after the other are read back one by one, in
    the order written, and nothing is left over. *)
Theorem two_packets_round_trip (s1 s2 : byte) (p1 p2 : list byte) :
  len p1 <= 0xFFFFFF -> len p2 <= 0xFFFFFF ->
  exists w1 w2,
    WritePacket new_buffer s1 p1 = (None, w1) /\
    WritePacket w1 s2 p2 = (None, w2) /\
    exists r1,
      ReadPacket (written w2) = (Ok (mkPacket (len p1) s1 p1), r1) /\
      ReadPacket r1 = (Ok (mkPacket (len p2) s2 p2), []).
Proof.
  intros H1 H2. unfold WritePacket.
  destruct (Z.gtb_spec (len p1) 0xFFFFFF); [lia|].
  destruct (Z.gtb_spec (len p2) 0xFFFFFF); [lia|].
  do 2 eexists. split; [reflexivity|]. split; [reflexivity|].
  cbn [Write new_buffer closed written app].
  exists (frame s2 p2). split.
  - apply (ReadPacket_frame s1 p1 (frame s2 p2)). assumption.
  - rewrite <- (app_nil_r (frame s2 p2)). apply ReadPacket_frame. assumption.
Qed.

Lemma two_packets_round_trip_witness :
  len (str "ab") <= 0xFFFFFF /\ len (@nil byte) <= 0xFFFFFF /\
  exists w1 w2,
    WritePacket new_buffer x01 (str "ab") = (None, w1) /\
    WritePacket w1 x02 [] = (None, w2) /\
    exists r1,
      ReadPacket (written w2) = (Ok (mkPacket 2 x01 (str "ab")), r1) /\
      ReadPacket r1 = (Ok (mkPacket 0 x02 []), []).
Proof.
  assert (H1 : len (str "ab") <= 0xFFFFFF) by (vm_compute; discriminate).
  assert (H2 : len (@nil byte) <= 0xFFFFFF) by (vm_compute; discriminate).
  split; [exact H1|split; [exact H2|]].
  exact (two_packets_round_trip x01 x02 (str "ab") [] H1 H2).
Defined.

End PacketStream.

(** ** Response builders *)

Section Builders.
Import Proxy Design.

Lemma lengthEncode_len (v : Z) : len (lengthEncode v) = minimal_width v.
Proof.
  unfold lengthEncode, minimal_width.
  destruct (v <? 251); [reflexivity|].
  destruct (v <? 2 ^ 16); [reflexivity|].
  destruct (v <? 2 ^ 24); reflexivity.
Qed.

Lemma minimal_width_range (v : Z) : 1 <= minimal_width v <= 9.
Proof.
  unfold minimal_width.
  destruct (v <? 251); [lia|].
  destruct (v <? 2 ^ 16); [lia|].
  destruct (v <? 2 ^ 24); lia.
Qed.

Lemma skipn_len_app (a b : list byte) : skipn (Z.to_nat (len a)) (a ++ b) = b.
Proof.
  unfold len. rewrite Nat2Z.id, skipn_app, Nat.sub_diag, skipn_all.
  reflexivity.
Qed.

(** X10: an OK packet reads back field by field: after the [0x00] header
    byte come the affected-row count and the last insert id as length-encoded
    integers in their shortest forms, then the status in two bytes, low
    byte first, then two zero bytes for the warnings; the packet has
    between 7 and 23 bytes. *)
Theorem ok_packet_fields (affectedRows lastInsertID status : Z) :
  0 <= affectedRows < 2 ^ 64 -> 0 <= lastInsertID < 2 ^ 64 ->
  0 <= status < 2 ^ 16 ->
  exists rest1 rest2 s0 s1,
    NewOKPacket affectedRows lastInsertID status = x00 :: rest1 /\
    ReadLengthEncodedInt rest1 = Ok (affectedRows, minimal_width affectedRows)
    /\ skipn (Z.to_nat (minimal_width affectedRows)) rest1 = rest2 /\
    ReadLengthEncodedInt rest2 = Ok (lastInsertID, minimal_width lastInsertID)
    /\ skipn (Z.to_nat (minimal_width lastInsertID)) rest2
       = [s0; s1; x00; x00] /\
    le_get [s0; s1] = status /\
    len (NewOKPacket affectedRows lastInsertID status)
    = 5 + minimal_width affectedRows + minimal_width lastInsertID /\
    7 <= len (NewOKPacket affectedRows lastInsertID status) <= 23.
Proof.
  intros Ha Hl Hs.
  pose proof (le_get_put 2 status) as Hg. cbn [le_put] in Hg.
  exists (lengthEncode affectedRows ++ lengthEncode lastInsertID
          ++ le_put 2 status ++ le_put 2 0),
         (lengthEncode lastInsertID ++ le_put 2 status ++ le_put 2 0),
         (byte_of_Z status), (byte_of_Z (Z.shiftr status 8)).
  assert (Hlen : len (NewOKPacket affectedRows lastInsertID status)
                 = 5 + minimal_width affectedRows + minimal_width lastInsertID).
  { unfold NewOKPacket. rewrite !len_app, !lengthEncode_len.
    change (len [x00]) with 1. change (len (le_put 2 status)) with 2.
    change (len (le_put 2 0)) with 2. lia. }
  split; [unfold NewOKPacket; rewrite <- !app_assoc; reflexivity|].
  split; [rewrite <- lengthEncode_len; apply ReadLengthEncodedInt_app;
          assumption|].
  split; [rewrite <- lengthEncode_len; apply skipn_len_app|].
  split; [rewrite <- lengthEncode_len; apply ReadLengthEncodedInt_app;
          assumption|].
  split; [rewrite <- lengthEncode_len; apply skipn_len_app|].
  split; [rewrite Hg; apply Z.mod_small; assumption|].
  split; [exact Hlen|].
  rewrite Hlen. pose proof (minimal_width_range affectedRows).
  pose proof (minimal_width_range lastInsertID). lia.
Qed.

Lemma ok_packet_fields_witness :
  (0 <= 1 < 2 ^ 64 /\ 0 <= 70000 < 2 ^ 64 /\ 0 <= 2 < 2 ^ 16) /\
  exists rest1 rest2 s0 s1,
    NewOKPacket 1 70000 2 = x00 :: rest1 /\
    ReadLengthEncodedInt rest1 = Ok (1, minimal_width 1) /\
    skipn (Z.to_nat (minimal_width 1)) rest1 = rest2 /\
    ReadLengthEncodedInt rest2 = Ok (70000, minimal_width 70000) /\
    skipn (Z.to_nat (minimal_width 70000)) rest2 = [s0; s1; x00; x00] /\
    le_get [s0; s1] = 2 /\
    len (NewOKPacket 1 70000 2) = 5 + minimal_width 1 + minimal_width 70000 /\
    7 <= len (NewOKPacket 1 70000 2) <= 23.
Proof.
  assert (H1 : 0 <= 1 < 2 ^ 64) by (cbn; lia).
  assert (H2 : 0 <= 70000 < 2 ^ 64) by (cbn; lia).
  assert (H3 : 0 <= 2 < 2 ^ 16) by (cbn; lia).
  split; [split; [exact H1|split; [exact H2|exact H3]]|].
  exact (ok_packet_fields 1 70000 2 H1 H2 H3).
Defined.

(** X11: an ERR packet reads back field by field: the [0xFF] header byte,
    the error code in two bytes, low byte first, the [#] marker, the SQL
    state as given (five bytes by the caller's contract, not checked), and
    the message up to the end of the packet, with no terminator. *)
Theorem err_packet_fields (code : Z) (sqlState message : list byte) :
  0 <= code < 2 ^ 16 -> len sqlState = 5 ->
  exists c0 c1,
    firstn 4 (NewErrPacket code sqlState message) = [xff; c0; c1; x23] /\
    le_get [c0; c1] = code /\
    firstn 5 (skipn 4 (NewErrPacket code sqlState message)) = sqlState /\
    skipn 9 (NewErrPacket code sqlState message) = message /\
    len (NewErrPacket code sqlState message) = 9 + len message.
Proof.
  intros Hc Hs.
  pose proof (le_get_put 2 code) as Hg. cbn [le_put] in Hg.
  exists (byte_of_Z code), (byte_of_Z (Z.shiftr code 8)).
  assert (Hn : List.length sqlState = 5%nat) by (unfold len in Hs; lia).
  assert (F : firstn 5 (sqlState ++ message) = sqlState)
    by (rewrite <- Hn, firstn_app, Nat.sub_diag, firstn_all, firstn_O;
        apply app_nil_r).
  assert (S : skipn 5 (sqlState ++ message) = message)
    by (rewrite <- Hn, skipn_app, Nat.sub_diag, skipn_all; reflexivity).
  assert (E : NewErrPacket code sqlState message
              = [xff; byte_of_Z code; byte_of_Z (Z.shiftr code 8); x23]
                  ++ sqlState ++ message) by reflexivity.
  rewrite E.
  split; [reflexivity|].
  split; [rewrite Hg; apply Z.mod_small; assumption|].
  split; [exact F|]. split; [exact S|].
  rewrite !len_app, Hs.
  change (len [xff; byte_of_Z code; byte_of_Z (Z.shiftr code 8); x23]) with 4.
  lia.
Qed.

Lemma err_packet_fields_witness :
  (0 <= 1045 < 2 ^ 16 /\ len (str "28000") = 5) /\
  exists c0 c1,
    firstn 4 (NewErrPacket 1045 (str "28000") (str "Access denied"))
    = [xff; c0; c1; x23] /\
    le_get [c0; c1] = 1045 /\
    firstn 5 (skipn 4 (NewErrPacket 1045 (str "28000") (str "Access denied")))
    = str "28000" /\
    skipn 9 (NewErrPacket 1045 (str "28000") (str "Access denied"))
    = str "Access denied" /\
    len (NewErrPacket 1045 (str "28000") (str "Access denied"))
    = 9 + len (str "Access denied").
Proof.
  assert (H1 : 0 <= 1045 < 2 ^ 16) by (cbn; lia).
  assert (H2 : len (str "28000") = 5) by reflexivity.
  split; [split; [exact H1|exact H2]|].
  exact (err_packet_fields 1045 (str "28000") (str "Access denied") H1 H2).
Defined.

End Builders.

(** ** The greeting *)

Section Greeting.
Import Proxy Design.

(** What [SendHandshake] sends and returns on a writable stream. *)
Lemma SendHandshake_open (w : Writer) (g : Rand) :
  closed w = false ->
  exists payload,
    SendHandshake w g
    = (Ok (map (gen g) (seq (drawn g + 4) 20)),
       mkWriter (written w ++ frame x00 payload) false,
       mkRand (gen g) (drawn g + 24)) /\
    len payload = 86 /\
    firstn 20 payload = byte_of_Z 10 :: str "metal-db-proxy-1.0" ++ [x00] /\
    firstn 8 (skipn 24 payload) ++ firstn 12 (skipn 51 payload)
    = map (gen g) (seq (drawn g + 4) 20) /\
    le_get (firstn 2 (skipn 33 payload))
    + 2 ^ 16 * le_get (firstn 2 (skipn 38 payload)) = capabilities /\
    nth 35 payload x00 = x21 /\
    le_get (firstn 2 (skipn 36 payload)) = 0x0002 /\
    nth 40 payload x00 = byte_of_Z 21 /\
    skipn 63 payload = x00 :: str "mysql_native_password" ++ [x00].
Proof.
  intros H. unfold SendHandshake, rand_Read, WritePacket, Write. rewrite H.
  cbn [gen drawn].
  match goal with |- context [len ?b >? _] => set (buf := b) end.
  assert (Hb : len buf = 86).
  { unfold buf, len.
    rewrite !length_app, !length_map, !length_seq, !repeat_length.
    reflexivity. }
  assert (Hs : map (gen g) (seq (drawn g + 4) 20)
               = map (gen g) (seq (drawn g + 4) 8)
                 ++ map (gen g) (seq (drawn g + 4 + 8) 12)).
  { change 20%nat with (8 + 12)%nat. rewrite seq_app, map_app. reflexivity. }
  rewrite Hb. change (86 >? 16777215) with false. cbv beta iota.
  exists buf. split.
  - replace (drawn g + 4 + 8 + 12)%nat with (drawn g + 24)%nat by lia.
    rewrite Hs. reflexivity.
  - split; [exact Hb|]. split; [reflexivity|]. split; [rewrite Hs; reflexivity|].
    repeat split.
Qed.

(** X12: on a writable stream [SendHandshake] sends one packet with sequence
    number 0 and a payload of 86 bytes: protocol version 10, the server
    name, then (after the 4-byte connection id) the first 8 scramble bytes at
    offset 24 and the other 12 at offset 51, the capability flags in two
    halves, character set 0x21, status 2, auth-data length 21 and the plugin
    name.  The scramble it returns is the 20 bytes it has just sent, drawn
    afresh from the random source after the connection id. *)
Theorem send_handshake_greeting (w : Writer) (g : Rand) :
  closed w = false ->
  exists payload scramble,
    SendHandshake w g
    = (Ok scramble, mkWriter (written w ++ frame x00 payload) false,
       mkRand (gen g) (drawn g + 24)) /\
    len payload = 86 /\ len scramble = 20 /\
    scramble = map (gen g) (seq (drawn g + 4) 20) /\
    scramble = firstn 8 (skipn 24 payload) ++ firstn 12 (skipn 51 payload) /\
    firstn 20 payload = byte_of_Z 10 :: str "metal-db-proxy-1.0" ++ [x00] /\
    le_get (firstn 2 (skipn 33 payload))
    + 2 ^ 16 * le_get (firstn 2 (skipn 38 payload)) = 0x8A20F /\
    nth 35 payload x00 = x21 /\
    le_get (firstn 2 (skipn 36 payload)) = 0x0002 /\
    nth 40 payload x00 = byte_of_Z 21 /\
    skipn 63 payload = x00 :: str "mysql_native_password" ++ [x00].
Proof.
  intros H.
  destruct (SendHandshake_open w g H)
    as [payload [E [Hl [Hv [Hs [Hc [Hcs [Hst [Ha Hp]]]]]]]]].
  exists payload, (map (gen g) (seq (drawn g + 4) 20)).
  split; [exact E|]. split; [exact Hl|].
  split; [unfold len; rewrite length_map, length_seq; reflexivity|].
  split; [reflexivity|]. split; [symmetry; exact Hs|].
  split; [exact Hv|]. split; [exact Hc|].
  split; [exact Hcs|]. split; [exact Hst|]. split; [exact Ha|exact Hp].
Qed.

Lemma send_handshake_greeting_witness :
  closed new_buffer = false /\
  exists payload scramble,
    SendHandshake new_buffer Fixtures.ones
    = (Ok scramble, mkWriter (written new_buffer ++ frame x00 payload) false,
       mkRand (gen Fixtures.ones) (drawn Fixtures.ones + 24)) /\
    len payload = 86 /\ len scramble = 20 /\
    scramble = map (gen Fixtures.ones) (seq (drawn Fixtures.ones + 4) 20) /\
    scramble = firstn 8 (skipn 24 payload) ++ firstn 12 (skipn 51 payload) /\
    firstn 20 payload = byte_of_Z 10 :: str "metal-db-proxy-1.0" ++ [x00] /\
    le_get (firstn 2 (skipn 33 payload))
    + 2 ^ 16 * le_get (firstn 2 (skipn 38 payload)) = 0x8A20F /\
    nth 35 payload x00 = x21 /\
    le_get (firstn 2 (skipn 36 payload)) = 0x0002 /\
    nth 40 payload x00 = byte_of_Z 21 /\
    skipn 63 payload = x00 :: str "mysql_native_password" ++ [x00].
Proof.
  split; [reflexivity|].
  exact (send_handshake_greeting new_buffer Fixtures.ones eq_refl).
Defined.

Lemma send_handshake_closed (w : Writer) (g : Rand) :
  closed w = true ->
  SendHandshake w g
  = (Err ErrClosedPipe, w, mkRand (gen g) (drawn g + 24)).
Proof.
  intros H. unfold SendHandshake, rand_Read, WritePacket, Write. rewrite H.
  cbn [gen drawn].
  match goal with |- context [len ?b >? _] => set (buf := b) end.
  assert (Hb : len buf = 86).
  { unfold buf, len.
    rewrite !length_app, !length_map, !length_seq, !repeat_length.
    reflexivity. }
  rewrite Hb. change (86 >? 16777215) with false. cbv beta iota.
  replace (drawn g + 4 + 8 + 12)%nat with (drawn g + 24)%nat by lia.
  reflexivity.
Qed.

(** X13: on a stream that refuses the write [SendHandshake] returns the
    write error and no scramble, and leaves the stream as it was. *)
Theorem send_handshake_write_fails (w : Writer) (g : Rand) :
  closed w = true ->
  SendHandshake w g
  = (Err ErrClosedPipe, w, mkRand (gen g) (drawn g + 24)).
Proof. apply send_handshake_closed. Qed.

Lemma send_handshake_write_fails_witness :
  closed (mkWriter [] true) = true /\
  SendHandshake (mkWriter [] true) Fixtures.ones
  = (Err ErrClosedPipe, mkWriter [] true, mkRand (fun _ => x01) 24).
Proof.
  split; [reflexivity|].
  exact (send_handshake_write_fails (mkWriter [] true) Fixtures.ones eq_refl).
Defined.

End Greeting.

(** ** The handshake parser, case by case *)

Section HandshakeCases.
Import Proxy Design.

Lemma bytes_eqb_refl (a : list byte) : bytes_eqb a a = true.
Proof. apply bytes_eqb_eq. reflexivity. Qed.

Lemma expected_response_len (password scr : list byte) :
  len (expected_response password scr) = 20.
Proof.
  unfold expected_response, len.
  rewrite xor_bytes_length by (rewrite !digest_length; reflexivity).
  rewrite digest_length. reflexivity.
Qed.

(** The verifier always answers. *)
Lemma verify_total (resp password scr : list byte) :
  exists b, verifyMySQLNativePassword resp password scr = Ret b.
Proof.
  destruct (Z.eq_dec (len resp) 20) as [Hr|Hr];
    [destruct (Z_lt_le_dec (len scr) 20) as [Hs|Hs]|].
  - exists false. unfold verifyMySQLNativePassword.
    destruct (Z.ltb_spec (len scr) 20); [|lia].
    rewrite orb_true_r. reflexivity.
  - eexists. apply verify_compares; assumption.
  - exists false. unfold verifyMySQLNativePassword.
    destruct (Z.eqb_spec (len resp) 20); [lia|]. reflexivity.
Qed.

Lemma verify_expected (password scr : list byte) :
  20 <= len scr ->
  verifyMySQLNativePassword (expected_response password scr) password scr
  = Ret true.
Proof.
  intros Hs. rewrite verify_compares
    by (try apply expected_response_len; assumption).
  rewrite bytes_eqb_refl. reflexivity.
Qed.

Lemma verify_other (resp password scr : list byte) :
  resp <> expected_response password scr ->
  verifyMySQLNativePassword resp password scr = Ret false.
Proof.
  intros Hne.
  destruct (Z.eq_dec (len resp) 20) as [Hr|Hr];
    [destruct (Z_lt_le_dec (len scr) 20) as [Hs|Hs]|].
  - unfold verifyMySQLNativePassword.
    destruct (Z.ltb_spec (len scr) 20); [|lia].
    rewrite orb_true_r. reflexivity.
  - rewrite verify_compares by assumption.
    destruct (bytes_eqb resp (expected_response password scr)) eqn:E;
      [|reflexivity].
    apply bytes_eqb_eq in E. contradiction.
  - unfold verifyMySQLNativePassword.
    destruct (Z.eqb_spec (len resp) 20); [lia|]. reflexivity.
Qed.

Lemma slice_in_range (s : list byte) (lo hi : Z) :
  0 <= lo <= hi -> hi <= len s -> exists t, slice s lo hi = Ret t.
Proof.
  intros H1 H2. unfold slice.
  destruct (Z.ltb_spec lo 0); [lia|].
  destruct (Z.ltb_spec hi lo); [lia|].
  destruct (Z.ltb_spec (len s) hi); [lia|].
  eexists. reflexivity.
Qed.

Lemma slice_reversed (s : list byte) (lo hi : Z) :
  hi < lo -> slice s lo hi = Panic (SliceBoundsOutOfRange lo hi).
Proof.
  intros H. unfold slice.
  destruct (Z.ltb_spec hi lo); [|lia].
  rewrite orb_true_r. reflexivity.
Qed.

(** The parser up to the auth-response length, on a payload with a
    terminated user name from position 36. *)
Lemma handshake_parsed_username (pre username rest : list byte) (w : Writer)
  (scr : list byte) (sequence : byte) :
  len pre = 36 -> ~ In x00 username ->
  len (pre ++ username ++ x00 :: rest) < 2 ^ 63 ->
  handleClientHandshakePacket (pre ++ username ++ x00 :: rest) w scr sequence
  = match ReadLengthEncodedInt rest with
    | Err e => Ret (Some (Wrapped "parse auth len" e), w)
    | Ok (authLen, authSize) =>
      let pos := 37 + len username + authSize in
      if int_add pos (int_of authLen) >? len (pre ++ username ++ x00 :: rest)
      then Ret (Some ErrInvalidPacket, w)
      else
        authResp <- slice (pre ++ username ++ x00 :: rest) pos
                      (int_add pos (int_of authLen)) ;;
        ok <- verifyMySQLNativePassword authResp (str "password") scr ;;
        Ret (WritePacket w (next_seq sequence)
               (if ok then NewOKPacket 0 0 0
                else NewErrPacket 1045 (str "28000")
                       (str "Access denied for user '" ++ username
                          ++ str "'")))
    end.
Proof.
  intros Hpre Hname Hlen.
  set (payload := pre ++ username ++ x00 :: rest) in *.
  pose proof (len_nonneg username) as Hu. pose proof (len_nonneg rest) as Hr.
  assert (Hp : len payload = 37 + len username + len rest).
  { unfold payload. rewrite !len_app, Hpre.
    change (x00 :: rest) with ([x00] ++ rest). rewrite len_app.
    change (len [x00]) with 1. lia. }
  assert (H63 : 2 ^ 63 = 9223372036854775808) by reflexivity.
  unfold handleClientHandshakePacket.
  destruct (Z.ltb_spec (len payload) 32); [lia|].
  destruct (slice_in_range payload 4 8) as [mp Emp]; [lia|lia|].
  rewrite Emp. clear Emp. cbn [bind].
  rewrite <- Hpre. unfold payload at 1. rewrite slice_from_app. cbn [bind].
  rewrite ReadNullTerminatedString_terminator by assumption.
  rewrite Hpre.
  assert (E1 : int_add 36 (len username + 1) = 37 + len username)
    by (unfold int_add; rewrite int_of_small; lia).
  rewrite !E1.
  assert (E2 : slice_from payload (37 + len username) = Ret rest).
  { replace (37 + len username) with (len (pre ++ username ++ [x00]))
      by (rewrite !len_app, Hpre; change (len [x00]) with 1; lia).
    replace payload with ((pre ++ username ++ [x00]) ++ rest)
      by (unfold payload; rewrite <- !app_assoc; reflexivity).
    apply slice_from_app. }
  rewrite E2. cbn [bind].
  destruct (ReadLengthEncodedInt rest) as [[authLen authSize]|e] eqn:ER;
    [|reflexivity].
  apply ReadLengthEncodedInt_bounds in ER. destruct ER as [Hsz _].
  assert (E3 : int_add (37 + len username) authSize
               = 37 + len username + authSize)
    by (unfold int_add; rewrite int_of_small; lia).
  rewrite !E3. cbv zeta.
  destruct (_ >? len payload); [reflexivity|].
  destruct (slice payload (37 + len username + authSize) _) as [authResp|];
    [|reflexivity].
  cbn [bind].
  destruct (verifyMySQLNativePassword authResp (str "password") scr)
    as [[|]|]; reflexivity.
Qed.

Lemma WritePacket_open (w : Writer) (sequence : byte) (payload : list byte) :
  closed w = false -> len payload <= 0xFFFFFF ->
  WritePacket w sequence payload
  = (None, mkWriter (written w ++ frame sequence payload) false).
Proof.
  intros Hc Hn. unfold WritePacket, Write.
  destruct (Z.gtb_spec (len payload) 0xFFFFFF); [lia|].
  rewrite Hc. reflexivity.
Qed.

Lemma NewErrPacket_len (code : Z) (sqlState message : list byte) :
  len (NewErrPacket code sqlState message) = 4 + len sqlState + len message.
Proof.
  change (NewErrPacket code sqlState message)
    with ([xff; byte_of_Z code; byte_of_Z (Z.shiftr code 8); x23]
            ++ sqlState ++ message).
  rewrite !len_app.
  change (len [xff; byte_of_Z code; byte_of_Z (Z.shiftr code 8); x23]) with 4.
  lia.
Qed.

Lemma HandleHandshake_expected
  (pre username trailing rest scr : list byte) (w : Writer)
  (sequence unused : byte) :
  len pre = 36 -> ~ In x00 username -> 20 <= len scr -> closed w = false ->
  len (pre ++ username ++ [x00]
         ++ lengthEncode (len (expected_response (str "password") scr))
         ++ expected_response (str "password") scr ++ trailing) <= 0xFFFFFF ->
  HandleHandshake
    (frame sequence
       (pre ++ username ++ [x00]
          ++ lengthEncode (len (expected_response (str "password") scr))
          ++ expected_response (str "password") scr ++ trailing) ++ rest)
    w scr unused
  = (Ret (None,
          mkWriter (written w ++ frame (next_seq sequence) (NewOKPacket 0 0 0))
                   false),
     rest).
Proof.
  intros Hpre Hname Hscr Hopen Hlen. unfold HandleHandshake.
  rewrite ReadPacket_frame by assumption. cbn [Payload Sequence].
  rewrite handshake_with_username_at_36
    by (try assumption; change (2 ^ 63) with 9223372036854775808; lia).
  rewrite verify_expected by assumption. cbn [bind].
  rewrite WritePacket_open by (try assumption; cbn; lia).
  reflexivity.
Qed.

(** X14: a client that answers the greeting with the response computed from
    the scramble and the password [password] is let in, whatever its user
    name: for a handshake packet with the user name at position 36, the
    handshake sends the OK packet numbered one after the client's packet,
    returns no error and leaves the rest of the stream unread.  The
    [sequence] argument plays no part. *)
Theorem handshake_accepts_expected_response
  (pre username trailing rest scr : list byte) (w : Writer)
  (sequence unused : byte) :
  len pre = 36 -> ~ In x00 username -> 20 <= len scr -> closed w = false ->
  len (pre ++ username ++ [x00]
         ++ lengthEncode (len (expected_response (str "password") scr))
         ++ expected_response (str "password") scr ++ trailing) <= 0xFFFFFF ->
  HandleHandshake
    (frame sequence
       (pre ++ username ++ [x00]
          ++ lengthEncode (len (expected_response (str "password") scr))
          ++ expected_response (str "password") scr ++ trailing) ++ rest)
    w scr unused
  = (Ret (None,
          mkWriter (written w ++ frame (next_seq sequence) (NewOKPacket 0 0 0))
                   false),
     rest).
Proof. apply HandleHandshake_expected. Qed.

Lemma handshake_accepts_expected_response_witness :
  HandleHandshake
    (frame x01
       (repeat x00 36 ++ str "alice" ++ [x00]
          ++ lengthEncode
               (len (expected_response (str "password") Fixtures.scramble))
          ++ expected_response (str "password") Fixtures.scramble ++ [])
     ++ Fixtures.quit_packet)
    new_buffer Fixtures.scramble x00
  = (Ret (None,
          mkWriter (written new_buffer ++ frame (next_seq x01)
                                            (NewOKPacket 0 0 0))
                   false),
     Fixtures.quit_packet).
Proof.
  apply (handshake_accepts_expected_response (repeat x00 36) (str "alice") []
           Fixtures.quit_packet Fixtures.scramble new_buffer x01 x00).
  - reflexivity.
  - cbn. intros [H|[H|[H|[H|[H|[]]]]]]; discriminate.
  - vm_compute. discriminate.
  - reflexivity.
  - vm_compute. discriminate.
Defined.

(** X15: any other auth response is turned down: for a handshake packet
    with the user name at position 36 and an auth response that is not the
    expected one, the handshake sends an ERR packet with code 1045, SQL
    state 28000 and the message naming the user, numbered one after the
    client's packet, and returns no error. *)
Theorem handshake_rejects_other_response
  (pre username auth trailing rest scr : list byte) (w : Writer)
  (sequence unused : byte) :
  len pre = 36 -> ~ In x00 username -> closed w = false ->
  auth <> expected_response (str "password") scr ->
  len (pre ++ username ++ [x00] ++ lengthEncode (len auth) ++ auth ++ trailing)
    <= 0xFFFFFF ->
  HandleHandshake
    (frame sequence
       (pre ++ username ++ [x00] ++ lengthEncode (len auth) ++ auth
          ++ trailing) ++ rest)
    w scr unused
  = (Ret (None,
          mkWriter
            (written w
             ++ frame (next_seq sequence)
                  (NewErrPacket 1045 (str "28000")
                     (str "Access denied for user '" ++ username ++ str "'")))
            false),
     rest).
Proof.
  intros Hpre Hname Hopen Hne Hlen. unfold HandleHandshake.
  rewrite ReadPacket_frame by assumption. cbn [Payload Sequence].
  rewrite handshake_with_username_at_36
    by (try assumption; change (2 ^ 63) with 9223372036854775808; lia).
  rewrite verify_other by assumption. cbn [bind].
  rewrite WritePacket_open; [reflexivity|assumption|].
  rewrite NewErrPacket_len, !len_app.
  rewrite !len_app, Hpre in Hlen.
  pose proof (len_nonneg (lengthEncode (len auth))).
  pose proof (len_nonneg auth). pose proof (len_nonneg trailing).
  change (len (str "28000")) with 5.
  change (len (str "Access denied for user '")) with 24.
  change (len (str "'")) with 1. change (len [x00]) with 1 in Hlen. lia.
Qed.

Lemma handshake_rejects_other_response_witness :
  HandleHandshake
    (frame x01
       (repeat x00 36 ++ str "alice" ++ [x00]
          ++ lengthEncode (len (str "guess")) ++ str "guess" ++ [])
     ++ [])
    new_buffer Fixtures.scramble x00
  = (Ret (None,
          mkWriter
            (written new_buffer
             ++ frame (next_seq x01)
                  (NewErrPacket 1045 (str "28000")
                     (str "Access denied for user '" ++ str "alice"
                        ++ str "'")))
            false),
     []).
Proof.
  apply (handshake_rejects_other_response (repeat x00 36) (str "alice")
           (str "guess") [] [] Fixtures.scramble new_buffer x01 x00).
  - reflexivity.
  - cbn. intros [H|[H|[H|[H|[H|[]]]]]]; discriminate.
  - reflexivity.
  - vm_compute. discriminate.
  - vm_compute. discriminate.
Defined.

Lemma int_of_wrap (z : Z) : 2 ^ 63 <= z < 2 ^ 64 + 2 ^ 63 -> int_of z = z - 2 ^ 64.
Proof.
  intros H. unfold int_of.
  change (2 ^ 63) with 9223372036854775808 in *.
  change (2 ^ 64) with 18446744073709551616 in *.
  Z.div_mod_to_equations. lia.
Qed.

Lemma payload_split_36 (payload : list byte) :
  36 <= len payload ->
  payload = firstn 36 payload ++ skipn 36 payload /\
  len (firstn 36 payload) = 36.
Proof.
  intros H. split; [symmetry; apply firstn_skipn|].
  unfold len in *. rewrite length_firstn. lia.
Qed.

Lemma handshake_unterminated (payload : list byte) (w : Writer)
  (scr : list byte) (sequence : byte) :
  36 <= len payload -> ~ In x00 (skipn 36 payload) ->
  handleClientHandshakePacket payload w scr sequence
  = Ret (Some (Wrapped "parse username" ErrInvalidPacket), w).
Proof.
  intros Hl Hn. unfold handleClientHandshakePacket.
  destruct (Z.ltb_spec (len payload) 32); [lia|].
  destruct (slice_in_range payload 4 8) as [mp Emp]; [lia|lia|].
  rewrite Emp. clear Emp. cbn [bind].
  assert (E : slice_from payload 36 = Ret (skipn 36 payload)).
  { unfold slice_from.
    destruct (Z.ltb_spec (len payload) 36); [lia|]. reflexivity. }
  rewrite E. cbn [bind].
  unfold ReadNullTerminatedString.
  rewrite IndexByte_absent by assumption. reflexivity.
Qed.

(** X16: an auth-response length that runs past the end of the payload is
    refused with [ErrInvalidPacket] and nothing is sent (lengths below 2^62
    on payloads below 2^62 bytes). *)
Theorem handshake_auth_length_past_end (pre username tail : list byte)
  (n : Z) (w : Writer) (scr : list byte) (sequence : byte) :
  len pre = 36 -> ~ In x00 username ->
  0 <= n < 2 ^ 62 -> len tail < n ->
  len (pre ++ username ++ x00 :: lengthEncode n ++ tail) < 2 ^ 62 ->
  handleClientHandshakePacket
    (pre ++ username ++ x00 :: lengthEncode n ++ tail) w scr sequence
  = Ret (Some ErrInvalidPacket, w).
Proof.
  intros Hpre Hname Hn Ht Hlen.
  assert (H62 : 2 ^ 62 = 4611686018427387904) by reflexivity.
  assert (H63 : 2 ^ 63 = 9223372036854775808) by reflexivity.
  assert (H64 : 2 ^ 64 = 18446744073709551616) by reflexivity.
  rewrite handshake_parsed_username by (try assumption; lia).
  rewrite ReadLengthEncodedInt_app by lia. cbv zeta.
  assert (Hp : len (pre ++ username ++ x00 :: lengthEncode n ++ tail)
               = 37 + len username + len (lengthEncode n) + len tail).
  { rewrite !len_app, Hpre.
    change (x00 :: lengthEncode n ++ tail)
      with ([x00] ++ lengthEncode n ++ tail).
    rewrite !len_app. change (len [x00]) with 1. lia. }
  pose proof (len_nonneg username). pose proof (len_nonneg tail).
  pose proof (len_nonneg (lengthEncode n)).
  rewrite (int_of_small n) by lia.
  unfold int_add. rewrite int_of_small by lia.
  destruct (Z.gtb_spec (37 + len username + len (lengthEncode n) + n)
              (len (pre ++ username ++ x00 :: lengthEncode n ++ tail)));
    [reflexivity|lia].
Qed.

Lemma handshake_auth_length_past_end_witness :
  handleClientHandshakePacket
    (repeat x00 36 ++ str "bob" ++ x00 :: lengthEncode 20 ++ str "short")
    new_buffer Fixtures.scramble x01
  = Ret (Some ErrInvalidPacket, new_buffer).
Proof.
  apply (handshake_auth_length_past_end (repeat x00 36) (str "bob")
           (str "short") 20 new_buffer Fixtures.scramble x01).
  - reflexivity.
  - cbn. intros [H|[H|[H|[]]]]; discriminate.
  - cbn. lia.
  - cbn. lia.
  - vm_compute. reflexivity.
Defined.

(** X17: a payload of 36 bytes or more with no zero byte from position 36
    on is refused with the user-name parse error; and when what follows the
    user name's terminator is not a length-encoded integer (nothing at all,
    a [0xFF], or a form cut short), the payload is refused with the
    auth-length parse error.  Nothing is sent in either case. *)
Theorem handshake_field_errors (w : Writer) (scr : list byte)
  (sequence : byte) :
  (forall payload,
     36 <= len payload -> ~ In x00 (skipn 36 payload) ->
     handleClientHandshakePacket payload w scr sequence
     = Ret (Some (Wrapped "parse username" ErrInvalidPacket), w)) /\
  (forall pre username rest,
     len pre = 36 -> ~ In x00 username ->
     len (pre ++ username ++ x00 :: rest) < 2 ^ 63 ->
     ReadLengthEncodedInt rest = Err ErrInvalidPacket ->
     handleClientHandshakePacket (pre ++ username ++ x00 :: rest) w scr
       sequence
     = Ret (Some (Wrapped "parse auth len" ErrInvalidPacket), w)).
Proof.
  split.
  - intros payload. apply handshake_unterminated.
  - intros pre username rest Hpre Hname Hlen Hr.
    rewrite handshake_parsed_username by assumption.
    rewrite Hr. reflexivity.
Qed.

Lemma handshake_field_errors_witness :
  handleClientHandshakePacket (repeat x00 36 ++ str "carol") new_buffer
    Fixtures.scramble x01
  = Ret (Some (Wrapped "parse username" ErrInvalidPacket), new_buffer) /\
  handleClientHandshakePacket (repeat x00 36 ++ str "carol" ++ x00 :: [])
    new_buffer Fixtures.scramble x01
  = Ret (Some (Wrapped "parse auth len" ErrInvalidPacket), new_buffer).
Proof.
  split.
  - apply (proj1 (handshake_field_errors new_buffer Fixtures.scramble x01)).
    + vm_compute. discriminate.
    + cbn. intros [H|[H|[H|[H|[H|[]]]]]]; discriminate.
  - apply (proj2 (handshake_field_errors new_buffer Fixtures.scramble x01)
             (repeat x00 36) (str "carol") []).
    + reflexivity.
    + cbn. intros [H|[H|[H|[H|[H|[]]]]]]; discriminate.
    + vm_compute. reflexivity.
    + reflexivity.
Defined.

Lemma WritePacket_inv (w w' : Writer) (sequence : byte)
  (payload : list byte) (e : option error) :
  WritePacket w sequence payload = (e, w') ->
  (e <> None /\ w' = w) \/
  (e = None /\ w' = mkWriter (written w ++ frame sequence payload) false).
Proof.
  unfold WritePacket, Write.
  destruct (len payload >? 0xFFFFFF);
    [intros H; injection H as <- <-; left; split; [discriminate|reflexivity]|].
  destruct (closed w); intros H; injection H as <- <-;
    [left; split; [discriminate|reflexivity]|right; split; reflexivity].
Qed.

(** X18: whatever the payload, a handshake that returns does one of two
    things: it returns an error and has sent nothing, or it returns no error
    and has sent exactly one packet, numbered one after the client's packet,
    which is the OK packet or an ERR packet with code 1045 and SQL state
    28000. *)
Theorem handshake_reply_shape (payload : list byte) (w w' : Writer)
  (scr : list byte) (sequence : byte) (e : option error) :
  handleClientHandshakePacket payload w scr sequence = Ret (e, w') ->
  (e <> None /\ w' = w) \/
  (e = None /\
   exists pkt,
     w' = mkWriter (written w ++ frame (next_seq sequence) pkt) false /\
     (pkt = NewOKPacket 0 0 0 \/
      exists username,
        pkt = NewErrPacket 1045 (str "28000")
                (str "Access denied for user '" ++ username ++ str "'"))).
Proof.
  unfold handleClientHandshakePacket. intros H.
  assert (Herr : forall err : error,
            (Some err <> None /\ w = w) \/
            (Some err = None /\
             exists pkt,
               w = mkWriter (written w ++ frame (next_seq sequence) pkt) false
               /\ (pkt = NewOKPacket 0 0 0 \/
                   exists username,
                     pkt = NewErrPacket 1045 (str "28000")
                             (str "Access denied for user '" ++ username
                                ++ str "'"))))
    by (intros err; left; split; [discriminate|reflexivity]).
  destruct (len payload <? 32); [injection H as <- <-; apply Herr|].
  destruct (slice payload 4 8); [|discriminate]. cbn [bind] in H.
  destruct (slice_from payload 36) as [rest|]; [|discriminate].
  cbn [bind] in H.
  destruct (ReadNullTerminatedString rest) as [[username n]|];
    [|injection H as <- <-; apply Herr].
  destruct (slice_from payload (int_add 36 n)) as [rest2|]; [|discriminate].
  cbn [bind] in H.
  destruct (ReadLengthEncodedInt rest2) as [[authLen authSize]|];
    [|injection H as <- <-; apply Herr].
  destruct (_ >? len payload); [injection H as <- <-; apply Herr|].
  destruct (slice payload (int_add (int_add 36 n) authSize) _)
    as [authResp|]; [|discriminate].
  cbn [bind] in H.
  destruct (verifyMySQLNativePassword _ _ _) as [ok|]; [|discriminate].
  cbn [bind] in H.
  destruct (negb ok); injection H as H;
    apply WritePacket_inv in H; destruct H as [H|[-> ->]];
    try (left; exact H); right; (split; [reflexivity|]);
    eexists; (split; [reflexivity|]).
  - right. exists username. reflexivity.
  - left. reflexivity.
Qed.

Lemma handshake_reply_shape_witness :
  handleClientHandshakePacket Fixtures.root_good new_buffer Fixtures.scramble
    x01
  = Ret (None, mkWriter (frame x02 (NewOKPacket 0 0 0)) false) /\
  ((@None error <> None /\
    mkWriter (frame x02 (NewOKPacket 0 0 0)) false = new_buffer) \/
   (@None error = None /\
    exists pkt,
      mkWriter (frame x02 (NewOKPacket 0 0 0)) false
      = mkWriter (written new_buffer ++ frame (next_seq x01) pkt) false /\
      (pkt = NewOKPacket 0 0 0 \/
       exists username,
         pkt = NewErrPacket 1045 (str "28000")
                 (str "Access denied for user '" ++ username ++ str "'")))).
Proof.
  assert (E : handleClientHandshakePacket Fixtures.root_good new_buffer
                Fixtures.scramble x01
              = Ret (None, mkWriter (frame x02 (NewOKPacket 0 0 0)) false))
    by (vm_compute; reflexivity).
  split; [exact E|].
  exact (handshake_reply_shape Fixtures.root_good new_buffer _
           Fixtures.scramble x01 None E).
Defined.

(** X19: when the parser faults.  On a payload of fewer than 2^63 bytes
    [handleClientHandshakePacket] faults in exactly two cases: the payload
    has 32 to 35 bytes; or, with the user name read from position 36, the
    auth-response length [v] read after it is so large that the end position
    [37 + len username + n + v] reaches 2^63 ([n] being the bytes the length
    took).  In every other case it returns. *)
Theorem handshake_faults_exactly_when (payload : list byte) (w : Writer)
  (scr : list byte) (sequence : byte) :
  len payload < 2 ^ 63 ->
  ((exists p, handleClientHandshakePacket payload w scr sequence = Panic p)
   <->
   (32 <= len payload < 36 \/
    exists pre username rest v n,
      payload = pre ++ username ++ x00 :: rest /\ len pre = 36 /\
      ~ In x00 username /\ ReadLengthEncodedInt rest = Ok (v, n) /\
      2 ^ 63 <= 37 + len username + n + v)).
Proof.
  intros Hlen.
  assert (H63 : 2 ^ 63 = 9223372036854775808) by reflexivity.
  assert (H64 : 2 ^ 64 = 18446744073709551616) by reflexivity.
  assert (Hcons : forall (u r : list byte),
            len (u ++ x00 :: r) = len u + 1 + len r).
  { intros u r. change (x00 :: r) with ([x00] ++ r).
    rewrite !len_app. change (len [x00]) with 1. lia. }
  split.
  - intros [p Hp].
    destruct (Z_lt_le_dec (len payload) 32) as [H32|H32];
      [rewrite handshake_short_payload in Hp by assumption; discriminate|].
    destruct (Z_lt_le_dec (len payload) 36) as [H36|H36]; [left; lia|].
    right. destruct (payload_split_36 payload H36) as [Es Hpre].
    set (pre := firstn 36 payload) in *. set (tail := skipn 36 payload) in *.
    destruct (in_dec Byte.byte_eq_dec x00 tail) as [Hin|Hout];
      [|rewrite handshake_unterminated in Hp by assumption; discriminate].
    destruct (in_split_first x00 tail Hin) as [username [rest [Et Hname]]].
    rewrite Et in Es. rewrite Es in Hp, Hlen.
    rewrite handshake_parsed_username in Hp by assumption.
    destruct (ReadLengthEncodedInt rest) as [[v n]|e] eqn:ER;
      [|discriminate].
    exists pre, username, rest, v, n.
    repeat (split; [assumption|]).
    destruct (Z_lt_le_dec (37 + len username + n + v) (2 ^ 63)) as [Hs|Hs];
      [exfalso|assumption].
    pose proof (ReadLengthEncodedInt_bounds rest v n ER) as [Hn Hv].
    assert (Hv0 : 0 <= v) by (destruct Hv as [[_ ?]|[[_ ?]|[[_ ?]|[_ ?]]]]; lia).
    pose proof (len_nonneg username).
    rewrite len_app, Hpre, Hcons in Hlen.
    cbv zeta in Hp.
    rewrite (int_of_small v) in Hp by lia.
    unfold int_add in Hp. rewrite int_of_small in Hp by lia.
    destruct (Z.gtb_spec (37 + len username + n + v)
                (len (pre ++ username ++ x00 :: rest))) as [Hgt|Hle];
      [discriminate|].
    destruct (slice_in_range (pre ++ username ++ x00 :: rest)
                (37 + len username + n) (37 + len username + n + v))
      as [t Ht]; [lia|exact Hle|].
    rewrite Ht in Hp. cbn [bind] in Hp.
    destruct (verify_total t (str "password") scr) as [b Hb].
    rewrite Hb in Hp. cbn [bind] in Hp. discriminate.
  - intros [H|[pre [username [rest [v [n [-> [Hpre [Hname [ER Hbig]]]]]]]]]].
    + eexists. apply handshake_faults_below_36. assumption.
    + rewrite handshake_parsed_username by assumption.
      rewrite ER. cbv zeta.
      pose proof (ReadLengthEncodedInt_bounds rest v n ER) as [Hn Hv].
      assert (Hv0 : 0 <= v < 2 ^ 64)
        by (change (2 ^ 16) with 65536 in Hv;
            change (2 ^ 24) with 16777216 in Hv;
            destruct Hv as [[_ ?]|[[_ ?]|[[_ ?]|[_ ?]]]]; lia).
      pose proof (len_nonneg username).
      rewrite len_app, Hpre, Hcons in Hlen |- *.
      assert (Hhi : int_add (37 + len username + n) (int_of v)
                    = 37 + len username + n + v - 2 ^ 64).
      { unfold int_add.
        destruct (Z_lt_le_dec v (2 ^ 63)) as [Hl|Hl].
        - rewrite (int_of_small v) by lia. apply int_of_wrap. lia.
        - rewrite (int_of_wrap v) by lia. rewrite int_of_small by lia. lia. }
      rewrite Hhi.
      destruct (Z.gtb_spec (37 + len username + n + v - 2 ^ 64)
                           (36 + (len username + 1 + len rest))); [lia|].
      rewrite slice_reversed by lia. eexists. reflexivity.
Qed.

Lemma handshake_faults_exactly_when_witness :
  len Fixtures.anonymous < 2 ^ 63 /\
  exists p,
    handleClientHandshakePacket Fixtures.anonymous new_buffer
      Fixtures.scramble x01 = Panic p.
Proof.
  assert (H : len Fixtures.anonymous < 2 ^ 63) by (vm_compute; reflexivity).
  split; [exact H|].
  apply (proj2 (handshake_faults_exactly_when Fixtures.anonymous new_buffer
                  Fixtures.scramble x01 H)).
  left. change (len Fixtures.anonymous) with 34. lia.
Defined.

End HandshakeCases.

(** ** The command loop, round by round *)

Section SessionRounds.
Import Proxy Connection Design.

(** [handleCommand] on a payload that is not empty: it never faults. *)
Lemma handleCommand_cons (c : Connection) (cmd : byte) (data : list byte) :
  handleCommand c (cmd :: data)
  = Ret (if Byte.eqb cmd COM_QUIT then
           (None, Some EOF, logf c Info "COM_QUIT received")
         else if Byte.eqb cmd COM_INIT_DB then
           (Some (NewOKPacket 0 0 0), None, logf c Info "COM_INIT_DB received")
         else if Byte.eqb cmd COM_QUERY then
           (Some (NewOKPacket 0 0 0), None, logf c Debug "COM_QUERY received")
         else
           (None, Some (UnsupportedCommand cmd),
            logf c Warn "unsupported command")).
Proof.
  unfold handleCommand, index, slice_from, len.
  cbn [List.length]. rewrite Nat2Z.inj_succ.
  destruct (Z.leb_spec (Z.succ (Z.of_nat (List.length data))) 0); [lia|].
  destruct (Z.ltb_spec (Z.succ (Z.of_nat (List.length data))) 1); [lia|].
  cbn [orb Z.ltb Z.compare nth_error Z.to_nat bind].
  destruct (Byte.eqb cmd COM_QUIT); [reflexivity|].
  destruct (Byte.eqb cmd COM_INIT_DB); [reflexivity|].
  destruct (Byte.eqb cmd COM_QUERY); reflexivity.
Qed.

Lemma len_zero_nil {A : Type} (s : list A) : len s = 0 -> s = [].
Proof. destruct s; [reflexivity|unfold len; cbn; lia]. Qed.

Lemma session_loop_unfold (fuel : nat) (c : Connection) :
  session_loop (S fuel) c = session_round (session_loop fuel) c.
Proof. reflexivity. Qed.

(** A round on a packet with a payload that is not empty. *)
Lemma session_round_command (next : Connection -> exit * Connection)
  (c : Connection) (seq cmd : byte) (data rest : list byte) :
  conn_in c = frame seq (cmd :: data) ++ rest ->
  len (cmd :: data) <= 0xFFFFFF ->
  session_round next c
  = match handleCommand (with_in c rest) (cmd :: data) with
    | Panic p => (Panicked p, with_in c rest)
    | Ret (_, Some err, c) =>
      match WritePacket (conn_out c) (next_seq seq)
              (NewErrPacket 1064 (str "42000") (Error err)) with
      | (Some werr, w) =>
        (Returned, logf (with_out c w) Warn "failed to write error packet")
      | (None, w) => next (with_out c w)
      end
    | Ret (None, None, c) => next c
    | Ret (Some resp, None, c) =>
      match WritePacket (conn_out c) (next_seq seq) resp with
      | (Some err, w) =>
        (Returned, logf (with_out c w) Warn "failed to write response packet")
      | (None, w) => next (with_out c w)
      end
    end.
Proof.
  intros Hin Hlen. unfold session_round.
  rewrite Hin, ReadPacket_frame by assumption. cbn [Payload Sequence].
  destruct (Z.eqb_spec (len (cmd :: data)) 0) as [H0|_];
    [unfold len in H0; cbn in H0; lia|].
  reflexivity.
Qed.

(** One more round allowed changes nothing once the rounds allowed exceed
    the bytes of input. *)
Lemma session_loop_stable (fuel : nat) :
  forall c : Connection,
  (List.length (conn_in c) < fuel)%nat ->
  session_loop (S fuel) c = session_loop fuel c /\
  fst (session_loop fuel c) = Returned.
Proof.
  induction fuel as [|fuel IH]; intros c Hc; [lia|].
  rewrite (session_loop_unfold (S fuel) c), (session_loop_unfold fuel c).
  unfold session_round.
  destruct (ReadPacket (conn_in c)) as [[pkt|e] r] eqn:ER.
  - apply ReadPacket_shrinks in ER.
    destruct (Z.eqb_spec (len (Payload pkt)) 0) as [Hz|Hz].
    + apply IH. cbn. lia.
    + destruct (Payload pkt) as [|cmd data] eqn:EP;
        [exfalso; apply Hz; reflexivity|].
      rewrite handleCommand_cons.
      destruct (Byte.eqb cmd COM_QUIT);
        [|destruct (Byte.eqb cmd COM_INIT_DB);
          [|destruct (Byte.eqb cmd COM_QUERY)]];
        (destruct (WritePacket _ _ _) as [[werr|] w];
         [split; reflexivity|apply IH; cbn; lia]).
  - destruct (is_EOF e); split; reflexivity.
Qed.

(** X20: the command loop always comes to an end and never faults: on any
    connection state it is left by a [return] (end of input, a read error or
    a failed write) within as many rounds as the input has bytes, a payload
    being looked at only when it is not empty; allowing more rounds gives
    the same final state. *)
Theorem session_loop_returns (c : Connection) (fuel : nat) :
  (List.length (conn_in c) < fuel)%nat ->
  fst (session_loop fuel c) = Returned /\
  session_loop fuel c = session_loop (S (List.length (conn_in c))) c.
Proof.
  intros H. split; [apply session_loop_stable; assumption|].
  induction fuel as [|fuel IH]; [lia|].
  destruct (Nat.eq_dec fuel (List.length (conn_in c))) as [->|Hne];
    [reflexivity|].
  rewrite <- IH by lia. apply session_loop_stable. lia.
Qed.

Lemma session_loop_returns_witness :
  (List.length
     (conn_in (NewConnection (Fixtures.quit_packet ++ Fixtures.init_db_packet)))
   < 100)%nat /\
  fst (session_loop 100
         (NewConnection (Fixtures.quit_packet ++ Fixtures.init_db_packet)))
  = Returned.
Proof.
  assert (H : (List.length
                 (conn_in (NewConnection
                             (Fixtures.quit_packet ++ Fixtures.init_db_packet)))
               < 100)%nat) by (vm_compute; lia).
  split; [exact H|].
  exact (proj1 (session_loop_returns _ 100 H)).
Defined.

Lemma byte_eqb_neq (a b : byte) : a <> b -> Byte.eqb a b = false.
Proof.
  intros H. destruct (Byte.eqb a b) eqn:E; [|reflexivity].
  apply Byte.byte_dec_bl in E. contradiction.
Qed.

Lemma fmt_d_byte_len (b : byte) : len (fmt_d (byte_to_Z b)) <= 3.
Proof. destruct b; vm_compute; discriminate. Qed.

(** X21: a [COM_INIT_DB] or [COM_QUERY] packet is answered with the OK
    packet (no rows, no insert id, status 0) numbered one after the
    command's packet, whatever the database name or the statement, and the
    loop goes on with the rest of the input. *)
Theorem session_answers_init_db_and_query (fuel : nat) (c : Connection)
  (seq cmd : byte) (data rest : list byte) :
  cmd = COM_INIT_DB \/ cmd = COM_QUERY ->
  conn_in c = frame seq (cmd :: data) ++ rest ->
  len (cmd :: data) <= 0xFFFFFF ->
  closed (conn_out c) = false ->
  session_loop (S fuel) c
  = session_loop fuel
      (mkConnection rest
         (mkWriter (written (conn_out c)
                    ++ frame (next_seq seq) (NewOKPacket 0 0 0))
                   false)
         (sequence c)
         (logger c
          ++ [if Byte.eqb cmd COM_INIT_DB
              then (Info, "COM_INIT_DB received"%string)
              else (Debug, "COM_QUERY received"%string)])).
Proof.
  intros Hcmd Hin Hlen Hopen.
  rewrite session_loop_unfold,
    (session_round_command _ c seq cmd data rest Hin Hlen),
    handleCommand_cons.
  destruct Hcmd as [-> | ->].
  - change (Byte.eqb COM_INIT_DB COM_QUIT) with false.
    change (Byte.eqb COM_INIT_DB COM_INIT_DB) with true. cbv beta iota.
    rewrite WritePacket_open by (try assumption; cbn; lia). reflexivity.
  - change (Byte.eqb COM_QUERY COM_QUIT) with false.
    change (Byte.eqb COM_QUERY COM_INIT_DB) with false.
    change (Byte.eqb COM_QUERY COM_QUERY) with true. cbv beta iota.
    rewrite WritePacket_open by (try assumption; cbn; lia). reflexivity.
Qed.

Lemma session_answers_init_db_and_query_witness :
  session_loop 1 (NewConnection Fixtures.init_db_packet)
  = session_loop 0
      (mkConnection []
         (mkWriter (frame x01 (NewOKPacket 0 0 0)) false) x00
         [(Info, "COM_INIT_DB received"%string)]).
Proof.
  apply (session_answers_init_db_and_query 0
           (NewConnection Fixtures.init_db_packet) x00 COM_INIT_DB
           (str "test") []).
  - left. reflexivity.
  - reflexivity.
  - vm_compute. discriminate.
  - reflexivity.
Defined.

(** X22: a command byte other than quit, init-db and query is answered with
    an ERR packet (code 1064, SQL state 42000, message [unsupported command:]
    and the byte in decimal) numbered one after the command's packet, and
    the loop goes on: the connection stays open. *)
Theorem session_answers_unsupported (fuel : nat) (c : Connection)
  (seq cmd : byte) (data rest : list byte) :
  cmd <> COM_QUIT -> cmd <> COM_INIT_DB -> cmd <> COM_QUERY ->
  conn_in c = frame seq (cmd :: data) ++ rest ->
  len (cmd :: data) <= 0xFFFFFF ->
  closed (conn_out c) = false ->
  session_loop (S fuel) c
  = session_loop fuel
      (mkConnection rest
         (mkWriter
            (written (conn_out c)
             ++ frame (next_seq seq)
                  (NewErrPacket 1064 (str "42000")
                     (str "unsupported command: " ++ fmt_d (byte_to_Z cmd))))
            false)
         (sequence c)
         (logger c ++ [(Warn, "unsupported command"%string)])).
Proof.
  intros H1 H2 H3 Hin Hlen Hopen.
  rewrite session_loop_unfold,
    (session_round_command _ c seq cmd data rest Hin Hlen),
    handleCommand_cons.
  rewrite !byte_eqb_neq by assumption.
  cbn [Error].
  rewrite WritePacket_open; [reflexivity|assumption|].
  rewrite NewErrPacket_len, len_app.
  pose proof (fmt_d_byte_len cmd).
  change (len (str "42000")) with 5.
  change (len (str "unsupported command: ")) with 21. lia.
Qed.

Lemma session_answers_unsupported_witness :
  session_loop 1 (NewConnection (frame x05 [x0e]))
  = session_loop 0
      (mkConnection []
         (mkWriter
            (frame x06
               (NewErrPacket 1064 (str "42000")
                  (str "unsupported command: 14")))
            false)
         x00 [(Warn, "unsupported command"%string)]).
Proof.
  apply (session_answers_unsupported 0 (NewConnection (frame x05 [x0e]))
           x05 x0e [] []); try discriminate; try reflexivity.
Defined.

(** X23: a packet with an empty payload is passed over: nothing is sent,
    nothing is logged, and the loop goes on with the rest of the input. *)
Theorem session_skips_empty_packet (fuel : nat) (c : Connection)
  (seq : byte) (rest : list byte) :
  conn_in c = frame seq [] ++ rest ->
  session_loop (S fuel) c
  = session_loop fuel
      (mkConnection rest (conn_out c) (sequence c) (logger c)).
Proof.
  intros Hin. rewrite session_loop_unfold. unfold session_round.
  rewrite Hin, ReadPacket_frame by (cbn; lia).
  reflexivity.
Qed.

Lemma session_skips_empty_packet_witness :
  session_loop 1 (NewConnection (frame x03 [] ++ Fixtures.quit_packet))
  = session_loop 0
      (mkConnection Fixtures.quit_packet new_buffer x00 []).
Proof.
  apply (session_skips_empty_packet 0
           (NewConnection (frame x03 [] ++ Fixtures.quit_packet)) x03
           Fixtures.quit_packet).
  reflexivity.
Defined.

(** X24: a reply that cannot be written ends the loop: on a stream that
    refuses writes, the first command packet with a payload makes the loop
    return, with a warning logged after the command's own log entry, and
    the rest of the input is left unread. *)
Theorem session_stops_on_failed_write (fuel : nat) (c : Connection)
  (seq cmd : byte) (data rest : list byte) :
  conn_in c = frame seq (cmd :: data) ++ rest ->
  len (cmd :: data) <= 0xFFFFFF ->
  closed (conn_out c) = true ->
  exists entry msg,
    session_loop (S fuel) c
    = (Returned,
       mkConnection rest (conn_out c) (sequence c)
         (logger c ++ [entry; (Warn, msg)])) /\
    (msg = "failed to write error packet"%string \/
     msg = "failed to write response packet"%string).
Proof.
  intros Hin Hlen Hclosed.
  rewrite session_loop_unfold,
    (session_round_command _ c seq cmd data rest Hin Hlen),
    handleCommand_cons.
  assert (Hw : forall s p, exists e, WritePacket (conn_out c) s p
                                      = (Some e, conn_out c)).
  { intros s p. unfold WritePacket, Write. rewrite Hclosed.
    destruct (len p >? 0xFFFFFF); eexists; reflexivity. }
  destruct (Byte.eqb cmd COM_QUIT);
    [|destruct (Byte.eqb cmd COM_INIT_DB);
      [|destruct (Byte.eqb cmd COM_QUERY)]];
    cbn [conn_out logf with_in];
    match goal with
    | |- context [WritePacket (conn_out c) ?s ?p] =>
      destruct (Hw s p) as [e He]; rewrite He
    end;
    do 2 eexists; (split; [unfold logf, with_out, with_in; cbn;
                           rewrite <- app_assoc; reflexivity|]);
    (now left) || (now right).
Qed.

Lemma session_stops_on_failed_write_witness :
  exists entry msg,
    session_loop 1
      (mkConnection Fixtures.init_db_packet (mkWriter [] true) x00 [])
    = (Returned,
       mkConnection [] (mkWriter [] true) x00 ([] ++ [entry; (Warn, msg)])) /\
    (msg = "failed to write error packet"%string \/
     msg = "failed to write response packet"%string).
Proof.
  apply (session_stops_on_failed_write 0
           (mkConnection Fixtures.init_db_packet (mkWriter [] true) x00 [])
           x00 COM_INIT_DB (str "test") []).
  - reflexivity.
  - vm_compute. discriminate.
  - reflexivity.
Defined.

End SessionRounds.

(** ** A whole connection *)

Section WholeConnection.
Import Proxy Connection Design.

(** [Handle] on a fresh connection, once the greeting is out. *)
Lemma handle_body_after_greeting (g : Rand) (input : list byte) :
  exists greeting,
    SendHandshake new_buffer g
    = (Ok (map (gen g) (seq (drawn g + 4) 20)),
       mkWriter (frame x00 greeting) false,
       mkRand (gen g) (drawn g + 24)) /\
    handle_body g (NewConnection input)
    = match HandleHandshake input (mkWriter (frame x00 greeting) false)
              (map (gen g) (seq (drawn g + 4) 20)) x01 with
      | (Panic p, r) =>
        (Panicked p,
         mkConnection r (mkWriter (frame x00 greeting) false) x01
           [(Info, "new connection"%string)])
      | (Ret (Some err, w), r) =>
        (Returned,
         mkConnection r w x01
           [(Info, "new connection"%string);
            (ErrorLevel, "handshake/auth failed"%string)])
      | (Ret (None, w), r) =>
        session_loop (S (List.length r))
          (mkConnection r w x01
             [(Info, "new connection"%string);
              (Info, "client authenticated"%string)])
      end.
Proof.
  destruct (SendHandshake_open new_buffer g eq_refl) as [greeting [E _]].
  exists greeting. cbn [new_buffer written app] in E. split; [exact E|].
  unfold handle_body, NewConnection, logf.
  cbn [conn_out conn_in sequence logger app].
  rewrite E.
  unfold with_out, with_sequence, with_in.
  cbn [conn_out conn_in sequence logger app].
  destruct (HandleHandshake input _ _ x01) as [[[[err|] w]|p] r]; reflexivity.
Qed.



(** X26: a client that goes away without a full packet header (fewer than
    four bytes of input) gets the greeting and nothing else: the handshake
    fails on reading, which [Handle] logs as an error before it closes the
    connection. *)
Theorem handle_client_gone (g : Rand) (input : list byte) :
  (List.length input < 4)%nat ->
  exists greeting,
    SendHandshake new_buffer g
    = (Ok (map (gen g) (seq (drawn g + 4) 20)),
       mkWriter (frame x00 greeting) false,
       mkRand (gen g) (drawn g + 24)) /\
    Handle g (NewConnection input)
    = mkConnection [] (mkWriter (frame x00 greeting) true) x01
        [ (Info, "new connection"%string);
          (ErrorLevel, "handshake/auth failed"%string);
          (Info, "connection closed"%string) ].
Proof.
  intros Hlen.
  destruct (handle_body_after_greeting g input) as [greeting [E Hb]].
  exists greeting. split; [exact E|].
  unfold Handle. rewrite Hb. unfold HandleHandshake, ReadPacket.
  rewrite ReadFull_short by assumption. reflexivity.
Qed.

Lemma handle_client_gone_witness :
  (List.length [x01; x00] < 4)%nat /\
  exists greeting,
    SendHandshake new_buffer Fixtures.ones
    = (Ok (map (gen Fixtures.ones) (seq (drawn Fixtures.ones + 4) 20)),
       mkWriter (frame x00 greeting) false,
       mkRand (gen Fixtures.ones) (drawn Fixtures.ones + 24)) /\
    Handle Fixtures.ones (NewConnection [x01; x00])
    = mkConnection [] (mkWriter (frame x00 greeting) true) x01
        [ (Info, "new connection"%string);
          (ErrorLevel, "handshake/auth failed"%string);
          (Info, "connection closed"%string) ].
Proof.
  assert (H : (List.length [x01; x00] < 4)%nat) by (cbn; lia).
  split; [exact H|].
  exact (handle_client_gone Fixtures.ones [x01; x00] H).
Defined.

(** X27: a whole connection that authenticates.  When the client answers
    the greeting with a handshake packet (user name at position 36) whose
    auth response is the one expected for the scramble just sent, [Handle]
    sends the greeting and the OK packet numbered one after the client's
    packet, logs the client as authenticated, serves the rest of the input in
    the command loop, and then closes the connection and logs that. *)
Theorem handle_authenticates (g : Rand) (sq : byte)
  (pre username trailing rest : list byte) :
  len pre = 36 -> ~ In x00 username ->
  len (pre ++ username ++ [x00]
         ++ lengthEncode
              (len (expected_response (str "password")
                      (map (gen g) (seq (drawn g + 4) 20))))
         ++ expected_response (str "password")
              (map (gen g) (seq (drawn g + 4) 20))
         ++ trailing) <= 0xFFFFFF ->
  exists greeting,
    SendHandshake new_buffer g
    = (Ok (map (gen g) (seq (drawn g + 4) 20)),
       mkWriter (frame x00 greeting) false,
       mkRand (gen g) (drawn g + 24)) /\
    Handle g
      (NewConnection
         (frame sq
            (pre ++ username ++ [x00]
               ++ lengthEncode
                    (len (expected_response (str "password")
                            (map (gen g) (seq (drawn g + 4) 20))))
               ++ expected_response (str "password")
                    (map (gen g) (seq (drawn g + 4) 20))
               ++ trailing)
          ++ rest))
    = logf
        (Close
           (snd (session_loop (S (List.length rest))
                   (mkConnection rest
                      (mkWriter (frame x00 greeting
                                 ++ frame (next_seq sq) (NewOKPacket 0 0 0))
                                false)
                      x01
                      [ (Info, "new connection"%string);
                        (Info, "client authenticated"%string) ]))))
        Info "connection closed".
Proof.
  intros Hpre Hname Hlen.
  match goal with
  | |- context [NewConnection ?i] =>
    destruct (handle_body_after_greeting g i) as [greeting [E Hb]]
  end.
  exists greeting. split; [exact E|].
  unfold Handle. rewrite Hb.
  rewrite HandleHandshake_expected;
    [|assumption|assumption
     |unfold len; rewrite length_map, length_seq; cbn; lia
     |reflexivity|assumption].
  cbn [written].
  match goal with
  | |- context [session_loop ?f ?c] =>
    pose proof (proj2 (session_loop_stable f c (Nat.lt_succ_diag_r _))) as Hr;
    destruct (session_loop f c) as [e c']
  end.
  cbn [fst] in Hr. subst e. reflexivity.
Qed.

Lemma handle_authenticates_witness :
  exists greeting,
    SendHandshake new_buffer Fixtures.ones
    = (Ok (map (gen Fixtures.ones) (seq (drawn Fixtures.ones + 4) 20)),
       mkWriter (frame x00 greeting) false,
       mkRand (gen Fixtures.ones) (drawn Fixtures.ones + 24)) /\
    Handle Fixtures.ones
      (NewConnection
         (frame x01
            (repeat x00 36 ++ str "dave" ++ [x00]
               ++ lengthEncode
                    (len (expected_response (str "password")
                            (map (gen Fixtures.ones)
                               (seq (drawn Fixtures.ones + 4) 20))))
               ++ expected_response (str "password")
                    (map (gen Fixtures.ones)
                       (seq (drawn Fixtures.ones + 4) 20))
               ++ [])
          ++ Fixtures.init_db_packet))
    = logf
        (Close
           (snd (session_loop (S (List.length Fixtures.init_db_packet))
                   (mkConnection Fixtures.init_db_packet
                      (mkWriter (frame x00 greeting
                                 ++ frame (next_seq x01) (NewOKPacket 0 0 0))
                                false)
                      x01
                      [ (Info, "new connection"%string);
                        (Info, "client authenticated"%string) ]))))
        Info "connection closed".
Proof.
  apply (handle_authenticates Fixtures.ones x01 (repeat x00 36) (str "dave")
           [] Fixtures.init_db_packet).
  - reflexivity.
  - cbn. intros [H|[H|[H|[H|[]]]]]; discriminate.
  - vm_compute. discriminate.
Defined.



End WholeConnection.
